(** * zenoh-c: the queryable-with-channels example and the CMake helpers

    A shallow embedding of
    - [examples/z_queryable_with_channels.c]: the callback [query_handler]
      and [main], as programs over the calls they make into the zenoh
      library, and
    - [helpers.cmake]: the functions [check_project_usage] and
      [status_print] and the macro [set_default_build_type], over CMake
      variables and the forms of [set],
    followed by the properties proved about them. *)

From Stdlib Require Import ZArith Strings.Ascii Strings.Byte.
From stdpp Require Import gmap strings list pretty.

Local Open Scope Z_scope.

(** * The zenoh values the example handles *)

Module Zenoh.

(** [z_loaned_bytes_t]: the bytes of a payload. *)
Definition z_bytes : Type := list byte.

(** A query as the example observes it through [z_query_keyexpr],
    [z_query_parameters] and [z_query_value]: the key expression it was
    sent on, its parameters, and its value, which a query need not
    carry. *)
Record z_query : Type := Query {
  query_keyexpr : string;
  query_parameters : string;
  query_value : option z_bytes
}.

(** [z_loaned_query_t]: a query borrowed from its owner. *)
Definition z_loaned_query_t : Type := z_query.

(** [z_owned_query_t]: an owned query, or the null state ([None]) that an
    owned value is left in once it has been moved out or dropped, and that
    [recv] stores when the channel is closed. *)
Definition z_owned_query_t : Type := option z_query.

(** [z_check] on an owned query: it holds a query. *)
Definition z_check (oquery : z_owned_query_t) : bool :=
  match oquery with Some _ => true | None => false end.

(** [z_view_keyexpr_t]: a view on the string of a key expression. *)
Definition z_view_keyexpr_t : Type := string.

(** Modelled from the spec: [z_query_value] and [z_value_payload] are
    declared in zenoh.h, which is not part of the sources. A query carries
    "optional payload bytes", and a query without payload is processed and
    answered like any other (the scenario of the testable properties), so
    the payload handed out for a query without value is the empty one. *)
Definition z_query_payload (query : z_loaned_query_t) : z_bytes :=
  default [] (query_value query).

(** [z_bytes_len]: the number of bytes, a [size_t]. *)
Definition z_bytes_len (payload : z_bytes) : Z := Z.of_nat (length payload).

(** [z_bytes_decode_into_string] and [z_bytes_encode_from_string]: the
    bytes of a string are its characters. *)
Definition z_bytes_decode_into_string (payload : z_bytes) : string :=
  String.string_of_list_byte payload.

Definition z_bytes_encode_from_string (s : string) : z_bytes :=
  String.list_byte_of_string s.

(** The configuration built by [z_config_default] and
    [zc_config_insert_json]: the inserted key/value pairs, latest first. *)
Definition z_config : Type := list (string * string).

(** What the library answers to the calls whose result the example
    tests. Each is a [z_error_t], negative on failure; the connect key is
    the macro [Z_CONFIG_CONNECT_KEY] of the library's headers. *)
Record library : Type := Library {
  Z_CONFIG_CONNECT_KEY : string;
  rc_zc_config_insert_json : string -> string -> Z;
  rc_z_open : z_config -> Z;
  rc_z_view_keyexpr_from_string : string -> Z;
  rc_z_declare_queryable : z_view_keyexpr_t -> Z
}.

End Zenoh.

Import Zenoh.

(** * Programs: the calls made, and how the run ends *)

(** The calls into the library and the C runtime that can be observed from
    outside, with their arguments. *)
Inductive event : Type :=
| Ev_printf (text : string)
| Ev_z_config_default
| Ev_zc_config_insert_json (key value : string)
| Ev_z_open (config : z_config)
| Ev_z_view_keyexpr_from_string (s : string)
| Ev_zc_query_fifo_new (bound : Z)
| Ev_z_closure_query_handler
| Ev_z_declare_queryable (ke : z_view_keyexpr_t)
| Ev_recv (oquery : z_owned_query_t)
| Ev_z_drop_string (s : string)
| Ev_z_query_reply (query : z_loaned_query_t) (ke : z_view_keyexpr_t)
                   (payload : z_bytes)
| Ev_z_drop_query (query : z_query)
| Ev_z_undeclare_queryable
| Ev_z_drop_channel
| Ev_z_close.

(** How a program ends: it returns a value, it calls [exit], or it waits
    for ever in a call that does not return. *)
Inductive outcome (A : Type) : Type :=
| Done (a : A)
| Exited (code : Z)
| Blocked.

Arguments Done {A} a.
Arguments Exited {A} code.
Arguments Blocked {A}.

Definition prog (A : Type) : Type := list event * outcome A.

Definition ret {A} (a : A) : prog A := ([], Done a).

Definition bind {A B} (m : prog A) (f : A -> prog B) : prog B :=
  match snd m with
  | Done a => (fst m ++ fst (f a), snd (f a))
  | Exited code => (fst m, Exited code)
  | Blocked => (fst m, Blocked)
  end.

Definition emit (e : event) : prog unit := ([e], Done tt).
Definition call {A} (e : event) (result : A) : prog A := ([e], Done result).
Definition exit {A} (code : Z) : prog A := ([], Exited code).
Definition blocked {A} : prog A := ([], Blocked).

Declare Scope prog_scope.
Delimit Scope prog_scope with prog.
Notation "x <- m ;; k" := (bind m (fun x => k))
  (at level 100, m at next level, right associativity) : prog_scope.
Notation "m ;; k" := (bind m (fun _ => k))
  (at level 100, right associativity) : prog_scope.
Local Open Scope prog_scope.

Definition trace {A} (p : prog A) : list event := fst p.
Definition result {A} (p : prog A) : outcome A := snd p.

Definition nl : string := String "010"%char EmptyString.

Definition printf (text : string) : prog unit := emit (Ev_printf text).

(** [(int)n] for a [size_t] [n]: the low 32 bits, read as a signed
    number. *)
Definition int_of_size_t (n : Z) : Z :=
  let low := n mod 2 ^ 32 in
  if low <? 2 ^ 31 then low else low - 2 ^ 32.

(** The characters of a C string: those before the first NUL. *)
Fixpoint until_nul (data : string) : string :=
  match data with
  | EmptyString => EmptyString
  | String c rest =>
      if Ascii.eqb c "000"%char then EmptyString
      else String c (until_nul rest)
  end.

(** What [printf] writes for [%.*s]: the characters of the data up to the
    first NUL, and at most as many as the precision says when it is not
    negative. (With a negative precision, data that holds no NUL is read
    past its end; the data itself is what is written here.) *)
Definition precision_s (precision : Z) (data : string) : string :=
  if precision <? 0 then until_nul data
  else until_nul (String.substring 0 (Z.to_nat precision) data).

(** [z_string_len] and [z_string_data] of a string, and what
    [printf("%.*s", (int)z_string_len(s), z_string_data(s))] writes. *)
Definition z_string_len (s : string) : Z := Z.of_nat (String.length s).
Definition z_string_data (s : string) : string := s.

Definition print_string (s : string) : string :=
  precision_s (int_of_size_t (z_string_len s)) (z_string_data s).

(** * The bounded query queue *)

Module Fifo.

Section Queue.
Context {A : Type}.

(** Modelled from the spec: the channel made by [zc_query_fifo_new] is
    implemented in the library, which is not part of the sources. It is
    the bounded queue of the component design: a fixed capacity, [push]
    on the producer side, [pop] on the consumer side, and closing. *)
Record fifo : Type := Channel {
  items : list A;
  bound : nat;
  closed : bool
}.

(** Modelled from the spec: a new queue is empty and open, with the
    capacity asked for; it is full when it holds that many items. *)
Definition new (bound : nat) : fifo :=
  {| items := []; bound := bound; closed := false |}.

Definition full (q : fifo) : bool :=
  bool_decide (bound q <= length (items q))%nat.

(** Modelled from the spec: [push] enqueues at the back; beyond the
    capacity the producer blocks or the item is dropped, and in both
    cases the item is not in the queue: [None]. *)
Definition push (x : A) (q : fifo) : option fifo :=
  if full q then None
  else Some {| items := items q ++ [x];
               bound := bound q;
               closed := closed q |}.

Inductive popped : Type :=
| Item (x : A) (q : fifo)
| EndMarker
| Wait.

(** Modelled from the spec: [pop] returns the end-of-stream marker once
    the queue is closed, the item at the front when there is one, and
    blocks otherwise. *)
Definition pop (q : fifo) : popped :=
  if closed q then EndMarker
  else match items q with
       | x :: rest =>
           Item x {| items := rest; bound := bound q; closed := closed q |}
       | [] => Wait
       end.

(** Modelled from the spec: closing marks the queue, for the calls of
    [pop] that are pending and those to come. *)
Definition close (q : fifo) : fifo :=
  {| items := items q; bound := bound q; closed := true |}.

End Queue.

Arguments fifo A : clear implicits.
Arguments popped A : clear implicits.

End Fifo.

(** * examples/z_queryable_with_channels.c *)

Module Example.

(** The globals [keyexpr] and [value] as they are initialised. *)
Definition keyexpr : string := "demo/example/zenoh-c-queryable".
Definition value : string := "Queryable from C!".

(** The bound [main] passes to [zc_query_fifo_new]. *)
Definition channel_bound : Z := 16.

(** [z_query_clone]: an owned query with the content of the borrowed
    one. *)
Definition z_query_clone (query : z_loaned_query_t) : z_owned_query_t :=
  Some query.

(** Modelled from the spec: the sending end of the channel,
    [channel.send], is a closure of the library. Called on [&oquery], it
    takes the owned query out of [oquery], which is left null, and pushes
    it: the ownership passes to the queue entry. The result is the channel
    and [oquery] afterwards. *)
Definition channel_send (channel : Fifo.fifo z_owned_query_t)
                        (oquery : z_owned_query_t)
  : Fifo.fifo z_owned_query_t * z_owned_query_t :=
  (default channel (Fifo.push oquery channel), None).

(** [query_handler], with every owned query taken for its content:
    [context] is the sending end of the channel. The result is the channel
    and the local [oquery] when the handler returns. (The references, and
    which object is whose, are in [Ownership].) *)
Definition query_handler (query : z_loaned_query_t)
                         (context : Fifo.fifo z_owned_query_t)
  : Fifo.fifo z_owned_query_t * z_owned_query_t :=
  let channel := context in
  let oquery := z_query_clone query in
  channel_send channel oquery.

(** Lines 80 to 96 of [main]: the line printed for a query, from its key
    expression, its parameters and the payload the library hands out. *)
Definition print_query (key_string params : string) (payload : z_bytes)
  : prog unit :=
  if 0 <? z_bytes_len payload then
    let payload_string := z_bytes_decode_into_string payload in
    printf (">> [Queryable ] Received Query '" +:+
            print_string key_string +:+ "?" +:+ print_string params +:+
            "' with value '" +:+ print_string payload_string +:+
            "'" +:+ nl) ;;
    emit (Ev_z_drop_string payload_string)
  else
    printf (">> [Queryable ] Received Query '" +:+
            print_string key_string +:+ "?" +:+ print_string params +:+
            "'" +:+ nl).

(** Lines 73 to 96: what is read from the query, and the line printed. *)
Definition show_query (query : z_loaned_query_t) : prog unit :=
  let key_string := query_keyexpr query in
  let params := query_parameters query in
  let payload := z_query_payload query in
  print_query key_string params payload.

(** The body of the loop of [main], for the query that [recv] stored in
    [oquery]; [ke] is the global view set up before the loop. *)
Definition loop_body (ke : z_view_keyexpr_t) (query : z_loaned_query_t)
  : prog unit :=
  show_query query ;;
  let reply_payload := z_bytes_encode_from_string value in
  emit (Ev_z_query_reply query ke reply_payload) ;;
  emit (Ev_z_drop_query query).

(** The loop of [main]:
    [for (recv(&oquery); z_check(oquery); recv(&oquery)) { ... }].
    [inbox] holds what the successive calls of [recv] store in [oquery];
    when it is used up, [recv] waits for ever. *)
Fixpoint consume (ke : z_view_keyexpr_t) (inbox : list z_owned_query_t)
  : prog unit :=
  match inbox with
  | [] => blocked
  | oquery :: inbox' =>
      emit (Ev_recv oquery) ;;
      match oquery with
      | Some query => loop_body ke query ;; consume ke inbox'
      | None => ret tt
      end
  end.

(** [main], for the library's answers [L], the arguments [argv] (the
    program's name first, [argc] their number) and the queries [inbox]
    that the channel delivers. *)
Definition main (L : library) (argv : list string)
                (inbox : list z_owned_query_t) : prog Z :=
  let argc := Z.of_nat (length argv) in
  let keyexpr := if 1 <? argc then nth 1 argv keyexpr else keyexpr in
  emit Ev_z_config_default ;;
  config <-
    (if 2 <? argc then
       let arg2 := nth 2 argv "" in
       rc <- call (Ev_zc_config_insert_json (Z_CONFIG_CONNECT_KEY L) arg2)
                  (rc_zc_config_insert_json L (Z_CONFIG_CONNECT_KEY L) arg2) ;;
       if rc <? 0 then
         printf ("Couldn't insert value `" +:+ arg2 +:+
                 "` in configuration at `" +:+ Z_CONFIG_CONNECT_KEY L +:+
                 "`. This is likely because `" +:+ Z_CONFIG_CONNECT_KEY L +:+
                 "` expects a JSON-serialized list of strings" +:+ nl) ;;
         exit (-1)
       else ret [(Z_CONFIG_CONNECT_KEY L, arg2)]
     else ret []) ;;
  printf ("Opening session..." +:+ nl) ;;
  rc <- call (Ev_z_open config) (rc_z_open L config) ;;
  if rc <? 0 then
    printf ("Unable to open session!" +:+ nl) ;;
    exit (-1)
  else
  rc <- call (Ev_z_view_keyexpr_from_string keyexpr)
             (rc_z_view_keyexpr_from_string L keyexpr) ;;
  if rc <? 0 then
    printf (keyexpr +:+ " is not a valid key expression") ;;
    exit (-1)
  else
  let ke : z_view_keyexpr_t := keyexpr in
  printf ("Declaring Queryable on '" +:+ keyexpr +:+ "'..." +:+ nl) ;;
  emit (Ev_zc_query_fifo_new channel_bound) ;;
  emit Ev_z_closure_query_handler ;;
  rc <- call (Ev_z_declare_queryable ke) (rc_z_declare_queryable L ke) ;;
  if rc <? 0 then
    printf ("Unable to create queryable." +:+ nl) ;;
    exit (-1)
  else
  printf ("^C to quit..." +:+ nl) ;;
  consume ke inbox ;;
  emit Ev_z_undeclare_queryable ;;
  emit Ev_z_drop_channel ;;
  emit Ev_z_close ;;
  ret 0.

(** ** The two threads around the channel

    The library calls [query_handler] once per incoming query, on a thread
    of its own, while [main] calls [recv]; the channel is what they share.
    A schedule lists these steps in the order they take effect. *)
Inductive action : Type :=
| Deliver (query : z_query)
| Receive
| Close.

(** The state of the two: the channel, and the history of what the
    handler has put into it ([enqueued]) and of what [recv] has stored
    ([received]). *)
Record system : Type := System {
  channel : Fifo.fifo z_owned_query_t;
  enqueued : list z_owned_query_t;
  received : list z_owned_query_t
}.

(** The channel as [main] creates it. *)
Definition system_init : system :=
  {| channel := Fifo.new (Z.to_nat channel_bound);
     enqueued := [];
     received := [] |}.

Definition step (sys : system) (a : action) : system :=
  match a with
  | Deliver query =>
      let channel' := fst (query_handler query (channel sys)) in
      {| channel := channel';
         enqueued := enqueued sys ++
                     drop (length (Fifo.items (channel sys)))
                          (Fifo.items channel');
         received := received sys |}
  | Receive =>
      match Fifo.pop (channel sys) with
      | Fifo.Item oquery channel' =>
          {| channel := channel';
             enqueued := enqueued sys;
             received := received sys ++ [oquery] |}
      | Fifo.EndMarker =>
          {| channel := channel sys;
             enqueued := enqueued sys;
             received := received sys ++ [None] |}
      | Fifo.Wait => sys
      end
  | Close =>
      {| channel := Fifo.close (channel sys);
         enqueued := enqueued sys;
         received := received sys |}
  end.

Definition run (schedule : list action) : system :=
  foldl step system_init schedule.

(** The queries [recv] has handed out: what it stored, without the end
    markers. *)
Definition dequeued (sys : system) : list z_owned_query_t :=
  filter (fun oquery => Is_true (z_check oquery)) (received sys).

(** What the calls of [recv] in [main] store, under a schedule. *)
Definition inbox_of (schedule : list action) : list z_owned_query_t :=
  received (run schedule).

End Example.

(** * The queries by reference: who owns what *)

Module Ownership.

(** Modelled from the spec: the query objects of the library are not part
    of the sources. A query is an object of the library, and a borrowed
    query ([const z_loaned_query_t *]) and an owned one
    ([z_owned_query_t]) are references to such objects, here numbers. The
    objects that are alive are kept with their contents. A borrowed query
    is valid "for the duration of the callback invocation": its object is
    the library's, which releases it when the callback returns. An owned
    query refers to an object of its owner, or is null. *)
Definition z_owned_query_t : Type := option nat.

(** Modelled from the spec: [z_query_clone] makes an object of the
    caller's own with the content of the borrowed one ("clone/copy the
    query value"), and stores the reference to it; for a reference that
    is not valid it stores null. *)
Definition z_query_clone (query : nat) (alive : gmap nat z_query)
  : z_owned_query_t * gmap nat z_query :=
  match alive !! query with
  | Some content =>
      let clone := fresh (dom alive) in
      (Some clone, <[clone := content]> alive)
  | None => (None, alive)
  end.

(** Modelled from the spec: the sending end of the channel takes the
    owned query out of [oquery], which is left null, and pushes it:
    "ownership of the cloned value transfers to the queue entry". *)
Definition channel_send (channel : Fifo.fifo z_owned_query_t)
                        (oquery : z_owned_query_t)
  : Fifo.fifo z_owned_query_t * z_owned_query_t :=
  (default channel (Fifo.push oquery channel), None).

(** [query_handler], on references: [query] is the borrowed query,
    [context] the sending end of the channel. The result is the channel,
    the local [oquery] and the objects alive when the handler returns. *)
Definition query_handler (query : nat)
                         (context : Fifo.fifo z_owned_query_t)
                         (alive : gmap nat z_query)
  : Fifo.fifo z_owned_query_t * z_owned_query_t * gmap nat z_query :=
  let channel := context in
  let cloned := z_query_clone query alive in
  let oquery := fst cloned in
  let alive := snd cloned in
  let sent := channel_send channel oquery in
  (fst sent, snd sent, alive).

(** Modelled from the spec: the library delivers a query. The object is
    the library's; it lends it to the callback and releases it when the
    callback has returned. *)
Definition deliver (content : z_query)
                   (context : Fifo.fifo z_owned_query_t)
                   (alive : gmap nat z_query)
  : Fifo.fifo z_owned_query_t * gmap nat z_query :=
  let query := fresh (dom alive) in
  let handled := query_handler query context (<[query := content]> alive) in
  (fst (fst handled), delete query (snd handled)).


End Ownership.

(** * helpers.cmake *)

Module CMake.

(** [${name}] in a scope: the variable's value, empty when it is not
    set. *)
Definition expand (vars : gmap string string) (name : string) : string :=
  default "" (vars !! name).

(** An unquoted operand of [if(... STREQUAL ...)]: the value of the
    variable of that name when there is one, the string itself
    otherwise. *)
Definition operand (vars : gmap string string) (arg : string) : string :=
  default arg (vars !! arg).

Definition TRUE : string := "TRUE".
Definition FALSE : string := "FALSE".

End CMake.

(** * helpers.cmake: [status_print] and [set_default_build_type] *)

Module Helpers.

Import CMake.

(** What is kept of the reports of a configuration run: the lines of
    [message(STATUS ...)], the error of [message(FATAL_ERROR ...)], and
    the error CMake raises itself when a command is given arguments it
    cannot take. Both errors stop the run. Warnings are not kept. *)
Inductive message : Type :=
| STATUS (text : string)
| FATAL_ERROR (text : string)
| COMMAND_ERROR (text : string).

(** The variables of the scope a command runs in, and the cache entries.
    A reference [${name}], [DEFINED name] and the operands of [if] see the
    variable of the scope when there is one, and the cache entry
    otherwise. *)
Record variables : Type := Variables {
  normal : gmap string string;
  cached : gmap string string
}.

Definition view (s : variables) : gmap string string :=
  normal s ∪ cached s.

(** A variable defined in the current scope, as [get_property] and
    [list(FIND ...)] do for their output variable and as the plain form of
    [set] does: the values are joined into a list; with no value, the
    variable is unset. *)
Definition set_normal (name : string) (values : list string) (s : variables)
  : variables :=
  match values with
  | [] => {| normal := delete name (normal s); cached := cached s |}
  | _ => {| normal := <[name := String.concat ";" values]> (normal s);
            cached := cached s |}
  end.

(** What a call of [set] stands for, by its arguments. *)
Inductive set_form : Type :=
| SetEnv (variable : string) (values : list string)
| UnsetNormal (variable : string)
| UnsetParent (variable : string)
| SetParent (variable value : string)
| SetCache (variable value type docstring : string) (force : bool)
| SetNormal (variable value : string)
| SetInvalid.

Definition has_last (keyword : string) (args : list string) : bool :=
  bool_decide (last args = Some keyword).

(** How [set] reads its arguments, once they are expanded: the variable
    comes first; [ENV{...}] names the environment; a last argument
    [PARENT_SCOPE] selects the parent scope; [CACHE <type> <docstring>]
    at the end, with [FORCE] after it or not, selects the cache; a
    [CACHE] or [FORCE] that is out of place is an error; what is left
    between the variable and these is the value, joined into a list. *)
Definition set_form_of (args : list string) : set_form :=
  match args with
  | [] => SetInvalid
  | variable :: values =>
      if String.prefix "ENV{" variable &&
         bool_decide (5 < String.length variable)%nat
      then SetEnv variable values
      else
        let size := length args in
        if bool_decide (size = 1%nat) then UnsetNormal variable
        else if bool_decide (size = 2%nat) && has_last "PARENT_SCOPE" args
        then UnsetParent variable
        else if has_last "PARENT_SCOPE" args
        then SetParent variable
                       (String.concat ";" (take (size - 2) values))
        else
          let force := bool_decide (4 < size)%nat && has_last "FORCE" args in
          let ignored := if force then 1%nat else 0%nat in
          let cache :=
            bool_decide (3 < size)%nat &&
            bool_decide (args !! (size - 3 - ignored)%nat = Some "CACHE") in
          if has_last "CACHE" args ||
             bool_decide (args !! (size - 2)%nat = Some "CACHE") ||
             (force && negb cache)
          then SetInvalid
          else if cache
          then SetCache variable
                        (String.concat ";" (take (size - 4 - ignored) values))
                        (default "" (args !! (size - 2 - ignored)%nat))
                        (default "" (args !! (size - 1 - ignored)%nat))
                        force
          else SetNormal variable (String.concat ";" values)
  end.

(** The index [list(FIND ...)] stores: that of the first element equal to
    the value, -1 when there is none. *)
Definition index_of (value : string) (l : list string) : Z :=
  match list_find (fun e => e = value) l with
  | Some (i, _) => Z.of_nat i
  | None => -1
  end.

(** The state a macro leaves, what it reported, and whether an error
    stopped the run. *)
Record configured : Type := Configured {
  state : variables;
  messages : list message;
  stopped : bool
}.

Section Commands.

(** How CMake divides the text of a list into its elements (empty ones
    included), and the variables CMake binds itself in the scope of a
    function called with one argument ([ARGC], [ARGV], [ARGN], ..., none
    of them named [var]): both are CMake's own, and are taken as they
    are. So is what a [set(... CACHE ...)] leaves, by the entries there
    are and by the policies in force, of the variable of the scope and of
    the cache entry of that name. *)
Variable elements : string -> list string.
Variable automatic : string -> gmap string string.
Variable cache_write :
  string -> string -> string -> string -> bool -> variables ->
  option string * option string.

(** The arguments an unquoted [${...}] stands for: the elements of its
    value that are not empty. *)
Definition unquoted (text : string) : list string :=
  filter (fun e => e <> "") (elements text).

(** [set(args...)] in the scope of the caller of a macro: the variables
    afterwards, or nothing when the arguments are an error. The parent
    scope and the environment are no part of the variables kept here. *)
Definition cmake_set (args : list string) (s : variables)
  : option variables :=
  match set_form_of args with
  | SetNormal variable value =>
      Some {| normal := <[variable := value]> (normal s);
              cached := cached s |}
  | UnsetNormal variable =>
      Some {| normal := delete variable (normal s); cached := cached s |}
  | SetParent _ _ | UnsetParent _ | SetEnv _ _ => Some s
  | SetCache variable value type docstring force =>
      let left := cache_write variable value type docstring force s in
      Some {| normal := partial_alter (fun _ => fst left) variable (normal s);
              cached := partial_alter (fun _ => snd left) variable (cached s) |}
  | SetInvalid => None
  end.

(** [status_print(var)], called where the variables in view are [vars].
    The body runs in a scope of its own, where [var] is bound to the
    argument; it prints one line and sets nothing. *)
Definition status_print (var : string) (vars : gmap string string)
  : list message :=
  let vars := <["var" := var]> (automatic var ∪ vars) in
  [STATUS (expand vars "var" +:+ " = " +:+ expand vars (expand vars "var"))].

Definition set_error (s : variables) : configured :=
  {| state := s;
     messages := [COMMAND_ERROR "set given invalid arguments for CACHE mode."];
     stopped := true |}.

(** [set_default_build_type(config_type)]. A macro runs in the scope of
    its caller, with [${config_type}] replaced by the text of the
    argument. [multi_config] is the global property
    [GENERATOR_IS_MULTI_CONFIG] of the generator, which [get_property]
    stores as 1 or 0. *)
Definition set_default_build_type (multi_config : bool) (config_type : string)
                                  (s : variables) : configured :=
  let s := set_normal "GENERATOR_IS_MULTI_CONFIG"
                      [if multi_config then "1" else "0"] s in
  if multi_config then
    match (if bool_decide (is_Some (view s !! "CMAKE_BUILD_TYPE"))
           then Some s
           else cmake_set ("CMAKE_BUILD_TYPE" :: unquoted config_type) s) with
    | None => set_error s
    | Some s =>
        match unquoted (expand (view s) "CMAKE_BUILD_TYPE") with
        | [build_type] =>
            let n := index_of build_type
                       (from_option elements []
                          (view s !! "CMAKE_CONFIGURATION_TYPES")) in
            let s := set_normal "n" [pretty n] s in
            if n <? 0 then
              {| state := s;
                 messages :=
                   [FATAL_ERROR ("Configuration " +:+
                                 expand (view s) "CMAKE_BUILD_TYPE" +:+
                                 " is not in CMAKE_CONFIGURATION_TYPES")];
                 stopped := true |}
            else if bool_decide (operand (view s) "CMAKE_GENERATOR" =
                                 "Ninja Multi-Config") then
              match cmake_set
                      ("CMAKE_DEFAULT_BUILD_TYPE" ::
                       unquoted (expand (view s) "CMAKE_BUILD_TYPE")) s with
              | None => set_error s
              | Some s =>
                  {| state := s;
                     messages :=
                       status_print "CMAKE_DEFAULT_BUILD_TYPE" (view s);
                     stopped := false |}
              end
            else
              {| state := s;
                 messages :=
                   [STATUS ("Default build type is not supported for " +:+
                            "generator '" +:+
                            expand (view s) "CMAKE_GENERATOR" +:+ "'");
                    STATUS ("use cmake --build . --config " +:+ config_type)];
                 stopped := false |}
        | _ =>
            {| state := s;
               messages :=
                 [COMMAND_ERROR
                    "list sub-command FIND requires three arguments."];
               stopped := true |}
        end
    end
  else
    match (if bool_decide (operand (view s) "CMAKE_BUILD_TYPE" = "")
           then cmake_set ("CMAKE_BUILD_TYPE" :: unquoted config_type) s
           else Some s) with
    | None => set_error s
    | Some s =>
        {| state := s;
           messages := status_print "CMAKE_BUILD_TYPE" (view s);
           stopped := false |}
    end.

End Commands.

End Helpers.

(** * helpers.cmake: [check_project_usage] *)

Module Usage.

Import CMake Helpers.

(** Every keyword of [if] is made of capital letters, underscores and
    parentheses: a word with another character in it is none. *)
Definition keyword_char (c : ascii) : bool :=
  ((65 <=? nat_of_ascii c)%nat && (nat_of_ascii c <=? 90)%nat) ||
  Ascii.eqb c "_" || Ascii.eqb c "(" || Ascii.eqb c ")".

Definition plain_word (text : string) : bool :=
  negb (forallb keyword_char (String.list_ascii_of_string text)).

Section Commands.

(** How CMake divides the text of a list into its elements, and the
    variables CMake binds itself in the scope of a function called with
    these two arguments ([ARGC], [ARGV], [ARGN], ..., none of them named
    [is_root] or [is_ide]), are taken as they are. So is what [if] makes
    of a condition that is not a comparison of two plain words: its
    value, or the text of the error that stops the run. *)
Variable elements : string -> list string.
Variable automatic : string -> string -> gmap string string.
Variable other_condition :
  list string -> gmap string string -> bool + string.

(** The variables in view in the body of the function: those in view
    where it is called, with the parameters bound to the arguments. They
    stay as they are while the body runs, since every [set] of the body
    is on the parent scope. *)
Definition function_scope (caller : variables) (is_root is_ide : string)
  : gmap string string :=
  <["is_ide" := is_ide]>
    (<["is_root" := is_root]> (automatic is_root is_ide ∪ view caller)).

(** [set(args...)] with [PARENT_SCOPE] for its last argument, in the body
    of a function: what it makes of the scope of the caller. With
    [PARENT_SCOPE] last, [set] is on the environment, which is no part of
    the variables kept here, or on the parent scope, where it sets the
    variable or, given no value, unsets it. *)
Definition set_parent (args : list string) (parent : variables)
  : variables :=
  match set_form_of args with
  | SetParent variable value =>
      {| normal := <[variable := value]> (normal parent);
         cached := cached parent |}
  | UnsetParent variable =>
      {| normal := delete variable (normal parent);
         cached := cached parent |}
  | _ => parent
  end.

(** [if(args...)], once the arguments are expanded. A plain word is no
    keyword: with one on each side of [STREQUAL] and nothing else, the
    condition is the comparison of the two, each read as the name of a
    variable when there is one of that name. *)
Definition condition (args : list string) (vars : gmap string string)
  : bool + string :=
  match args with
  | [first; op; second] =>
      if plain_word first && bool_decide (op = "STREQUAL") && plain_word second
      then inl (bool_decide (operand vars first = operand vars second))
      else other_condition args vars
  | _ => other_condition args vars
  end.

(** The condition of line 10: both operands are unquoted references,
    which stand for the elements of the values. *)
Definition source_is_current (vars : gmap string string) : bool + string :=
  condition (unquoted elements (expand vars "CMAKE_SOURCE_DIR") ++
             "STREQUAL" ::
             unquoted elements (expand vars "CMAKE_CURRENT_SOURCE_DIR"))
            vars.

(** The condition of line 12: the left operand is a word, read as the
    name of a variable when there is one; the right operand is quoted. *)
Definition binary_is_build (vars : gmap string string) : bool :=
  bool_decide (operand vars "CMAKE_CURRENT_BINARY_DIR" =
               expand vars "CMAKE_CURRENT_SOURCE_DIR" +:+ "/build").

(** [check_project_usage(is_root is_ide)], called with two arguments
    where the variables are [caller]: the variables there afterwards, and
    whether an error stopped the run. The unquoted [${is_root}] and
    [${is_ide}] stand for the elements of the arguments. *)
Definition check_project_usage (is_root is_ide : string) (caller : variables)
  : configured :=
  let vars := function_scope caller is_root is_ide in
  let parent :=
    set_parent (unquoted elements (expand vars "is_root") ++
                [FALSE; "PARENT_SCOPE"]) caller in
  let parent :=
    set_parent (unquoted elements (expand vars "is_ide") ++
                [FALSE; "PARENT_SCOPE"]) parent in
  match source_is_current vars with
  | inr text =>
      {| state := parent; messages := [COMMAND_ERROR text];
         stopped := true |}
  | inl false => {| state := parent; messages := []; stopped := false |}
  | inl true =>
      let parent :=
        set_parent (unquoted elements (expand vars "is_root") ++
                    [TRUE; "PARENT_SCOPE"]) parent in
      if binary_is_build vars then
        {| state :=
             set_parent (unquoted elements (expand vars "is_ide") ++
                         [TRUE; "PARENT_SCOPE"]) parent;
           messages := []; stopped := false |}
      else {| state := parent; messages := []; stopped := false |}
  end.

End Commands.

End Usage.

(** * Vocabulary of the statements *)

Import Example CMake.

(** [argc], the key expression [main] ends up with in [keyexpr], and the
    configuration it opens the session with. *)
Definition argc (argv : list string) : Z := Z.of_nat (length argv).

Definition keyexpr_of (argv : list string) : string :=
  if 1 <? argc argv then nth 1 argv keyexpr else keyexpr.

Definition config_of (L : library) (argv : list string) : z_config :=
  if 2 <? argc argv then [(Z_CONFIG_CONNECT_KEY L, nth 2 argv "")] else [].

(** The four setup failures. *)
Definition config_rejected (L : library) (argv : list string) : bool :=
  (2 <? argc argv) &&
  (rc_zc_config_insert_json L (Z_CONFIG_CONNECT_KEY L) (nth 2 argv "") <? 0).

Definition open_failed (L : library) (argv : list string) : bool :=
  rc_z_open L (config_of L argv) <? 0.

Definition keyexpr_invalid (L : library) (argv : list string) : bool :=
  rc_z_view_keyexpr_from_string L (keyexpr_of argv) <? 0.

Definition declare_failed (L : library) (argv : list string) : bool :=
  rc_z_declare_queryable L (keyexpr_of argv) <? 0.

Definition setup_fails (L : library) (argv : list string) : bool :=
  config_rejected L argv || open_failed L argv ||
  keyexpr_invalid L argv || declare_failed L argv.

(** The queries the loop processes: those [recv] delivers before the first
    null one. *)
Fixpoint served (inbox : list z_owned_query_t) : list z_query :=
  match inbox with
  | Some query :: inbox' => query :: served inbox'
  | _ => []
  end.

(** [recv] delivers the end marker at some point. *)
Fixpoint ends (inbox : list z_owned_query_t) : bool :=
  match inbox with
  | [] => false
  | Some _ :: inbox' => ends inbox'
  | None :: _ => true
  end.

(** The calls of [main] up to the loop when the setup succeeds, and those
    after it. *)
Definition setup_events (L : library) (argv : list string) : list event :=
  [Ev_z_config_default] ++
  (if 2 <? argc argv
   then [Ev_zc_config_insert_json (Z_CONFIG_CONNECT_KEY L) (nth 2 argv "")]
   else []) ++
  [Ev_printf ("Opening session..." +:+ nl);
   Ev_z_open (config_of L argv);
   Ev_z_view_keyexpr_from_string (keyexpr_of argv);
   Ev_printf ("Declaring Queryable on '" +:+ keyexpr_of argv +:+ "'..." +:+ nl);
   Ev_zc_query_fifo_new channel_bound;
   Ev_z_closure_query_handler;
   Ev_z_declare_queryable (keyexpr_of argv);
   Ev_printf ("^C to quit..." +:+ nl)].

Definition teardown_events : list event :=
  [Ev_z_undeclare_queryable; Ev_z_drop_channel; Ev_z_close].

(** The calls that concern a query: [recv], the reply and the drop. *)
Definition is_recv (e : event) : bool :=
  match e with Ev_recv _ => true | _ => false end.

Definition is_reply (e : event) : bool :=
  match e with Ev_z_query_reply _ _ _ => true | _ => false end.

Definition is_drop_query (e : event) : bool :=
  match e with Ev_z_drop_query _ => true | _ => false end.

Definition on_query (e : event) : bool :=
  is_recv e || is_reply e || is_drop_query e.

Definition is_fifo_new (e : event) : bool :=
  match e with Ev_zc_query_fifo_new _ => true | _ => false end.

(** The replies of a run, in order: the query answered, the key expression
    the reply is addressed by, and its payload. *)
Definition reply_of (e : event)
  : option (z_query * z_view_keyexpr_t * z_bytes) :=
  match e with
  | Ev_z_query_reply query ke payload => Some (query, ke, payload)
  | _ => None
  end.

Definition replies (t : list event)
  : list (z_query * z_view_keyexpr_t * z_bytes) :=
  omap reply_of t.

(** Every reply of a trace is addressed by [ke] and is followed at once by
    the drop of the query it answers. *)
Definition reply_then_drop (ke : z_view_keyexpr_t) (t : list event) : Prop :=
  forall (i : nat) query k payload,
    t !! i = Some (Ev_z_query_reply query k payload) ->
    k = ke /\ t !! S i = Some (Ev_z_drop_query query).

(** The two lines that [main] prints for a query. *)
Definition line_plain (key_string params : string) : string :=
  ">> [Queryable ] Received Query '" +:+ key_string +:+ "?" +:+ params +:+
  "'" +:+ nl.

Definition line_with_value (key_string params payload_string : string)
  : string :=
  ">> [Queryable ] Received Query '" +:+ key_string +:+ "?" +:+ params +:+
  "' with value '" +:+ payload_string +:+ "'" +:+ nl.

(** One turn of the loop, from [recv] on. *)
Definition turn (ke : z_view_keyexpr_t) (query : z_query) : list event :=
  Ev_recv (Some query) :: trace (loop_body ke query).

(** The calls of [main] when the setup fails, by the first step that
    fails. *)
Definition config_events (L : library) (argv : list string) : list event :=
  [Ev_z_config_default] ++
  (if 2 <? argc argv
   then [Ev_zc_config_insert_json (Z_CONFIG_CONNECT_KEY L) (nth 2 argv "")]
   else []).

Definition failure_events (L : library) (argv : list string) : list event :=
  if config_rejected L argv then
    config_events L argv ++
    [Ev_printf ("Couldn't insert value `" +:+ nth 2 argv "" +:+
                "` in configuration at `" +:+ Z_CONFIG_CONNECT_KEY L +:+
                "`. This is likely because `" +:+ Z_CONFIG_CONNECT_KEY L +:+
                "` expects a JSON-serialized list of strings" +:+ nl)]
  else if open_failed L argv then
    config_events L argv ++
    [Ev_printf ("Opening session..." +:+ nl);
     Ev_z_open (config_of L argv);
     Ev_printf ("Unable to open session!" +:+ nl)]
  else if keyexpr_invalid L argv then
    config_events L argv ++
    [Ev_printf ("Opening session..." +:+ nl);
     Ev_z_open (config_of L argv);
     Ev_z_view_keyexpr_from_string (keyexpr_of argv);
     Ev_printf (keyexpr_of argv +:+ " is not a valid key expression")]
  else
    config_events L argv ++
    [Ev_printf ("Opening session..." +:+ nl);
     Ev_z_open (config_of L argv);
     Ev_z_view_keyexpr_from_string (keyexpr_of argv);
     Ev_printf ("Declaring Queryable on '" +:+ keyexpr_of argv +:+ "'..." +:+ nl);
     Ev_zc_query_fifo_new channel_bound;
     Ev_z_closure_query_handler;
     Ev_z_declare_queryable (keyexpr_of argv);
     Ev_printf ("Unable to create queryable." +:+ nl)].

(** More kinds of calls: the three of the teardown, the opening of the
    session, the insertion into the configuration, the declaration of the
    queryable, and the drop of a decoded payload. *)
Definition is_teardown (e : event) : bool :=
  match e with
  | Ev_z_undeclare_queryable | Ev_z_drop_channel | Ev_z_close => true
  | _ => false
  end.

Definition is_open (e : event) : bool :=
  match e with Ev_z_open _ => true | _ => false end.

Definition is_insert_json (e : event) : bool :=
  match e with Ev_zc_config_insert_json _ _ => true | _ => false end.

Definition is_drop_string (e : event) : bool :=
  match e with Ev_z_drop_string _ => true | _ => false end.

Definition is_declare (e : event) : bool :=
  match e with Ev_z_declare_queryable _ => true | _ => false end.

Definition is_view_keyexpr (e : event) : bool :=
  match e with Ev_z_view_keyexpr_from_string _ => true | _ => false end.

(** The payloads that the loop decodes: those of the queries processed
    that have at least one byte. *)
Definition decoded (queries : list z_query) : list string :=
  map (fun query => z_bytes_decode_into_string (z_query_payload query))
      (filter (fun query => Is_true (0 <? z_bytes_len (z_query_payload query)))
              queries).

(** The queries that a schedule delivers to the handler, in order. *)
Definition deliveries (queries : list z_query) : list action :=
  map Deliver queries.

(** The keys that the two conditions of [check_project_usage] look up in
    the scope of the function. *)
Definition keys_read (vars : gmap string string) : list string :=
  ["CMAKE_SOURCE_DIR"; "CMAKE_CURRENT_SOURCE_DIR"; "CMAKE_CURRENT_BINARY_DIR";
   expand vars "CMAKE_SOURCE_DIR"; expand vars "CMAKE_CURRENT_SOURCE_DIR"].

(** A text that an unquoted reference turns into one argument, the text
    itself, and that [set] does not read as a name of the environment: a
    name of a variable, as [ZENOHC_IS_ROOT] is. *)
Definition names_variable (elements : string -> list string)
                          (name : string) : Prop :=
  Helpers.unquoted elements name = [name] /\
  String.prefix "ENV{" name = false.

(** A variable whose value an unquoted reference turns into one
    argument, the value itself, which is a plain word: so is a directory
    variable, which holds a path. *)
Definition holds_path (elements : string -> list string)
                      (vars : gmap string string) (name : string) : Prop :=
  Helpers.unquoted elements (expand vars name) = [expand vars name] /\
  Usage.plain_word (expand vars name) = true.

(** Lists without brackets or escapes: the elements are the parts between
    the semicolons. *)
Fixpoint split_semicolons (current text : string) : list string :=
  match text with
  | EmptyString => [String.rev current]
  | String c rest =>
      if Ascii.eqb c ";"%char
      then String.rev current :: split_semicolons "" rest
      else split_semicolons (String c current) rest
  end.

Definition elements_plain (text : string) : list string :=
  match text with
  | EmptyString => []
  | _ => split_semicolons "" text
  end.

(** The variables of the scope of a function called with one argument. *)
Definition automatic_one (argument : string) : gmap string string :=
  <["ARGC" := "1"]> (<["ARGV" := argument]> (<["ARGV0" := argument]>
    (<["ARGN" := ""]> ∅))).

(** The variables of the scope of a function called with two
    arguments. *)
Definition automatic_two (first second : string) : gmap string string :=
  <["ARGC" := "2"]> (<["ARGV" := first +:+ ";" +:+ second]>
    (<["ARGV0" := first]> (<["ARGV1" := second]> (<["ARGN" := ""]> ∅)))).

(** An [if] that takes no condition but the comparison of two plain
    words. *)
Definition condition_unknown (args : list string)
                             (vars : gmap string string) : bool + string :=
  inr "Unknown arguments specified".

(** A cache that takes an entry when there is none of the name or when
    the write is forced, and leaves the variables of the scope alone. *)
Definition cache_write_new (variable value type docstring : string)
                           (force : bool) (s : Helpers.variables)
  : option string * option string :=
  (Helpers.normal s !! variable,
   match Helpers.cached s !! variable with
   | Some old => Some (if force then value else old)
   | None => Some value
   end).

(** A project on a generator with one configuration, where CMake has set
    the build type to the empty string in the cache, and one on a
    generator with several. *)
Definition vars_single_config : Helpers.variables :=
  {| Helpers.normal := ∅;
     Helpers.cached := <["CMAKE_BUILD_TYPE" := ""]>
                         (<["CMAKE_GENERATOR" := "Unix Makefiles"]> ∅) |}.

Definition vars_multi_config : Helpers.variables :=
  {| Helpers.normal := ∅;
     Helpers.cached :=
       <["CMAKE_CONFIGURATION_TYPES" := "Debug;Release;RelWithDebInfo"]>
         (<["CMAKE_GENERATOR" := "Ninja Multi-Config"]> ∅) |}.

(** ** Sample runs *)

(** A library that accepts everything, and four that refuse one step. *)
Definition lib_ok : library :=
  {| Z_CONFIG_CONNECT_KEY := "connect/endpoints";
     rc_zc_config_insert_json := fun _ _ => 0;
     rc_z_open := fun _ => 0;
     rc_z_view_keyexpr_from_string := fun _ => 0;
     rc_z_declare_queryable := fun _ => 0 |}.

Definition lib_bad_config : library :=
  {| Z_CONFIG_CONNECT_KEY := "connect/endpoints";
     rc_zc_config_insert_json := fun _ _ => -1;
     rc_z_open := fun _ => 0;
     rc_z_view_keyexpr_from_string := fun _ => 0;
     rc_z_declare_queryable := fun _ => 0 |}.

Definition lib_no_session : library :=
  {| Z_CONFIG_CONNECT_KEY := "connect/endpoints";
     rc_zc_config_insert_json := fun _ _ => 0;
     rc_z_open := fun _ => -1;
     rc_z_view_keyexpr_from_string := fun _ => 0;
     rc_z_declare_queryable := fun _ => 0 |}.

Definition lib_bad_keyexpr : library :=
  {| Z_CONFIG_CONNECT_KEY := "connect/endpoints";
     rc_zc_config_insert_json := fun _ _ => 0;
     rc_z_open := fun _ => 0;
     rc_z_view_keyexpr_from_string := fun _ => -1;
     rc_z_declare_queryable := fun _ => 0 |}.

Definition lib_no_queryable : library :=
  {| Z_CONFIG_CONNECT_KEY := "connect/endpoints";
     rc_zc_config_insert_json := fun _ _ => 0;
     rc_z_open := fun _ => 0;
     rc_z_view_keyexpr_from_string := fun _ => 0;
     rc_z_declare_queryable := fun _ => -1 |}.

(** Command lines: no argument, and a key expression with an endpoint. *)
Definition argv_plain : list string := ["z_queryable_with_channels"].

Definition argv_connect : list string :=
  ["z_queryable_with_channels"; "demo/example/**"; "[tcp/127.0.0.1:7447]"].

(** Queries: without value, with an empty value, with a value of one
    byte. *)
Definition query_absent : z_query :=
  {| query_keyexpr := "demo/example/**";
     query_parameters := "";
     query_value := None |}.

Definition query_empty : z_query :=
  {| query_keyexpr := "demo/example/**";
     query_parameters := "";
     query_value := Some [] |}.

Definition query_one_byte : z_query :=
  {| query_keyexpr := "demo/example/**";
     query_parameters := "";
     query_value := Some [Byte.x41] |}.

(** A query whose value has a NUL byte between two letters. *)
Definition query_with_nul : z_query :=
  {| query_keyexpr := "demo/example/**";
     query_parameters := "";
     query_value := Some [Byte.x41; Byte.x00; Byte.x42] |}.

(** The variables of a project configured on its own, from an IDE, and of
    one included by another project. *)
Definition scope_ide : Helpers.variables :=
  {| Helpers.normal :=
       <["CMAKE_CURRENT_BINARY_DIR" := "/src/zenoh-c/build"]>
         (<["CMAKE_CURRENT_SOURCE_DIR" := "/src/zenoh-c"]>
            (<["CMAKE_SOURCE_DIR" := "/src/zenoh-c"]> ∅));
     Helpers.cached := ∅ |}.

Definition scope_included : Helpers.variables :=
  {| Helpers.normal :=
       <["CMAKE_CURRENT_BINARY_DIR" := "/src/app/build/zenoh-c"]>
         (<["CMAKE_CURRENT_SOURCE_DIR" := "/src/app/zenoh-c"]>
            (<["CMAKE_SOURCE_DIR" := "/src/app"]> ∅));
     Helpers.cached := ∅ |}.

(** * Programs: basic facts *)

Lemma trace_bind {A B} (m : prog A) (f : A -> prog B) :
  trace (bind m f) =
  trace m ++ match result m with Done a => trace (f a) | _ => [] end.
Proof.
  unfold trace, result, bind.
  destruct m as [t [a | code |]]; cbn [fst snd]; by rewrite ?app_nil_r.
Qed.

Lemma result_bind {A B} (m : prog A) (f : A -> prog B) :
  result (bind m f) =
  match result m with
  | Done a => result (f a)
  | Exited code => Exited code
  | Blocked => Blocked
  end.
Proof.
  unfold result, bind. by destruct m as [t [a | code |]].
Qed.

Lemma prog_eq {A} (p : prog A) : p = (trace p, result p).
Proof. by destruct p. Qed.

(** Runs a program as far as its calls are known. *)
Ltac run_prog :=
  repeat (rewrite ?trace_bind, ?result_bind;
          cbn [trace result fst snd emit call printf exit ret blocked]).

(** * Sample runs, evaluated *)

Example main_answers_one_query :
  main lib_ok argv_plain [Some query_one_byte; None] =
  ([Ev_z_config_default;
    Ev_printf ("Opening session..." +:+ nl);
    Ev_z_open [];
    Ev_z_view_keyexpr_from_string "demo/example/zenoh-c-queryable";
    Ev_printf ("Declaring Queryable on 'demo/example/zenoh-c-queryable'..."
               +:+ nl);
    Ev_zc_query_fifo_new 16;
    Ev_z_closure_query_handler;
    Ev_z_declare_queryable "demo/example/zenoh-c-queryable";
    Ev_printf ("^C to quit..." +:+ nl);
    Ev_recv (Some query_one_byte);
    Ev_printf (">> [Queryable ] Received Query 'demo/example/**?' with value 'A'"
               +:+ nl);
    Ev_z_drop_string "A";
    Ev_z_query_reply query_one_byte "demo/example/zenoh-c-queryable"
                     (String.list_byte_of_string "Queryable from C!");
    Ev_z_drop_query query_one_byte;
    Ev_recv None;
    Ev_z_undeclare_queryable;
    Ev_z_drop_channel;
    Ev_z_close],
   Done 0).
Proof. reflexivity. Qed.

Example main_rejected_endpoint :
  main lib_bad_config argv_connect [Some query_absent; None] =
  ([Ev_z_config_default;
    Ev_zc_config_insert_json "connect/endpoints" "[tcp/127.0.0.1:7447]";
    Ev_printf ("Couldn't insert value `[tcp/127.0.0.1:7447]` in " +:+
               "configuration at `connect/endpoints`. This is likely " +:+
               "because `connect/endpoints` expects a JSON-serialized " +:+
               "list of strings" +:+ nl)],
   Exited (-1)).
Proof. reflexivity. Qed.

Example main_waits_on_empty_channel :
  result (main lib_ok argv_connect [Some query_absent]) = Blocked.
Proof. reflexivity. Qed.

Example handler_then_recv :
  inbox_of [Deliver query_absent; Receive; Close; Receive] =
  [Some query_absent; None].
Proof. reflexivity. Qed.

Example full_channel_refuses :
  length (Fifo.items (channel (run (replicate 17 (Deliver query_absent)))))
  = 16%nat.
Proof. reflexivity. Qed.

Example check_project_usage_ide :
  Usage.check_project_usage elements_plain automatic_two condition_unknown
    "ZENOHC_IS_ROOT" "ZENOHC_IS_IDE" scope_ide =
  {| Helpers.state :=
       {| Helpers.normal :=
            <["ZENOHC_IS_IDE" := "TRUE"]>
              (<["ZENOHC_IS_ROOT" := "TRUE"]> (Helpers.normal scope_ide));
          Helpers.cached := ∅ |};
     Helpers.messages := [];
     Helpers.stopped := false |}.
Proof. by vm_compute. Qed.

Example check_project_usage_included :
  Usage.check_project_usage elements_plain automatic_two condition_unknown
    "ZENOHC_IS_ROOT" "ZENOHC_IS_IDE" scope_included =
  {| Helpers.state :=
       {| Helpers.normal :=
            <["ZENOHC_IS_IDE" := "FALSE"]>
              (<["ZENOHC_IS_ROOT" := "FALSE"]>
                 (Helpers.normal scope_included));
          Helpers.cached := ∅ |};
     Helpers.messages := [];
     Helpers.stopped := false |}.
Proof. by vm_compute. Qed.

(** An argument of two elements is two arguments of [set]: the first
    names the variable, the second goes into the value; and with an
    empty argument, [set] is given [FALSE] and [TRUE] for the names of
    variables, which it unsets. *)
Example check_project_usage_list_argument :
  Helpers.normal
    (Helpers.state
       (Usage.check_project_usage elements_plain automatic_two
          condition_unknown "A;B" "ZENOHC_IS_IDE" scope_included))
    !! "A" = Some "B;FALSE" /\
  Helpers.normal
    (Helpers.state
       (Usage.check_project_usage elements_plain automatic_two
          condition_unknown "" "ZENOHC_IS_IDE"
          {| Helpers.normal := <["FALSE" := "0"]>
                                 (Helpers.normal scope_included);
             Helpers.cached := ∅ |}))
    !! "FALSE" = None.
Proof. split; by vm_compute. Qed.

(** * The loop *)

Lemma print_query_result key_string params payload :
  result (print_query key_string params payload) = Done tt.
Proof. unfold print_query. by destruct (0 <? z_bytes_len payload). Qed.

Lemma print_query_on_query key_string params payload :
  filter on_query (trace (print_query key_string params payload)) = [].
Proof. unfold print_query. by destruct (0 <? z_bytes_len payload). Qed.

Lemma show_query_result query : result (show_query query) = Done tt.
Proof. apply print_query_result. Qed.

Lemma show_query_on_query query :
  filter on_query (trace (show_query query)) = [].
Proof. apply print_query_on_query. Qed.

Lemma loop_body_result ke query : result (loop_body ke query) = Done tt.
Proof.
  unfold loop_body. by rewrite result_bind, show_query_result.
Qed.

Lemma loop_body_trace ke query :
  trace (loop_body ke query) =
  trace (show_query query) ++
  [Ev_z_query_reply query ke (z_bytes_encode_from_string value);
   Ev_z_drop_query query].
Proof.
  unfold loop_body. by rewrite trace_bind, show_query_result.
Qed.

Lemma consume_result ke inbox :
  result (consume ke inbox) = if ends inbox then Done tt else Blocked.
Proof.
  induction inbox as [| [query |] inbox IH]; [done | | done].
  cbn [consume ends]. rewrite result_bind. cbn.
  by rewrite result_bind, loop_body_result.
Qed.

Lemma consume_trace ke inbox :
  trace (consume ke inbox) =
  flat_map (turn ke) (served inbox) ++
  (if ends inbox then [Ev_recv None] else []).
Proof.
  induction inbox as [| [query |] inbox IH]; [done | | done].
  cbn [consume ends served flat_map]. rewrite trace_bind. cbn.
  rewrite trace_bind, loop_body_result, IH. unfold turn.
  by rewrite <- app_assoc.
Qed.

(** * [main] *)

Lemma main_setup_ok L argv inbox :
  setup_fails L argv = false ->
  main L argv inbox =
  (setup_events L argv ++ trace (consume (keyexpr_of argv) inbox) ++
   (if ends inbox then teardown_events else []),
   if ends inbox then Done 0 else Blocked).
Proof.
  unfold setup_fails, config_rejected, open_failed, keyexpr_invalid,
    declare_failed.
  intros H.
  repeat (apply orb_false_elim in H as [H ?]).
  rewrite (prog_eq (main L argv inbox)). unfold main.
  pose proof (consume_result (keyexpr_of argv) inbox) as Hc.
  fold (argc argv). fold (keyexpr_of argv).
  unfold setup_events, teardown_events, config_of in *.
  destruct (2 <? argc argv); cbn [andb] in *;
    run_prog; rewrite ?H; run_prog; rewrite H2; run_prog; rewrite H1;
    run_prog; rewrite H0; run_prog;
    fold (trace (consume (keyexpr_of argv) inbox)); rewrite Hc;
    destruct (ends inbox); cbn [app]; by rewrite ?app_nil_r.
Qed.

Lemma main_setup_fails L argv inbox :
  setup_fails L argv = true ->
  main L argv inbox = (failure_events L argv, Exited (-1)).
Proof.
  unfold setup_fails, failure_events, config_events, config_rejected,
    open_failed, keyexpr_invalid, declare_failed.
  intros H.
  rewrite (prog_eq (main L argv inbox)). unfold main.
  fold (argc argv). fold (keyexpr_of argv).
  unfold config_of in *.
  destruct (2 <? argc argv); cbn [andb orb] in *; run_prog.
  - destruct (rc_zc_config_insert_json _ _ _ <? 0); run_prog; [done |].
    destruct (rc_z_open _ _ <? 0); run_prog; [done |].
    destruct (rc_z_view_keyexpr_from_string _ _ <? 0); run_prog; [done |].
    cbn [orb] in H. rewrite H. by run_prog.
  - destruct (rc_z_open _ _ <? 0); run_prog; [done |].
    destruct (rc_z_view_keyexpr_from_string _ _ <? 0); run_prog; [done |].
    cbn [orb] in H. rewrite H. by run_prog.
Qed.

Lemma served_app_end queries rest :
  served (map Some queries ++ None :: rest) = queries.
Proof. induction queries as [| q queries IH]; [done |]. cbn. by rewrite IH. Qed.

Lemma ends_app_end queries rest :
  ends (map Some queries ++ None :: rest) = true.
Proof. induction queries as [| q queries IH]; done. Qed.

Lemma filter_flat_map_nil {A} (P : event -> Prop) `{!forall e, Decision (P e)}
      (f : A -> list event) (l : list A) :
  (forall x, filter P (f x) = []) -> filter P (flat_map f l) = [].
Proof.
  intros Hf. induction l as [| x l IH]; [done |].
  cbn [flat_map]. by rewrite filter_app, Hf, IH.
Qed.

Lemma failure_events_on_query L argv :
  filter on_query (failure_events L argv) = [].
Proof.
  unfold failure_events, config_events.
  by destruct (config_rejected L argv), (open_failed L argv),
    (keyexpr_invalid L argv), (2 <? argc argv).
Qed.

Lemma setup_events_on_query L argv :
  filter on_query (setup_events L argv) = [].
Proof. unfold setup_events. by destruct (2 <? argc argv). Qed.

Lemma turn_on_query ke query :
  filter on_query (turn ke query) =
  [Ev_recv (Some query);
   Ev_z_query_reply query ke (z_bytes_encode_from_string value);
   Ev_z_drop_query query].
Proof.
  unfold turn. rewrite loop_body_trace, filter_cons_True by done.
  by rewrite filter_app, show_query_on_query.
Qed.

Lemma flat_map_filter_turn ke queries :
  filter on_query (flat_map (turn ke) queries) =
  flat_map (fun query =>
              [Ev_recv (Some query);
               Ev_z_query_reply query ke (z_bytes_encode_from_string value);
               Ev_z_drop_query query]) queries.
Proof.
  induction queries as [| q queries IH]; [done |].
  cbn [flat_map]. by rewrite filter_app, turn_on_query, IH.
Qed.

Lemma replies_app t1 t2 : replies (t1 ++ t2) = replies t1 ++ replies t2.
Proof. apply omap_app. Qed.

Lemma replies_filter t : replies (filter on_query t) = replies t.
Proof.
  induction t as [| e t IH]; [done |].
  rewrite filter_cons. unfold replies in *.
  destruct e; case_decide as Hd; cbn in Hd |- *; try done; by rewrite IH.
Qed.

Lemma consume_on_query ke inbox :
  filter on_query (trace (consume ke inbox)) =
  flat_map (fun query =>
              [Ev_recv (Some query);
               Ev_z_query_reply query ke (z_bytes_encode_from_string value);
               Ev_z_drop_query query]) (served inbox) ++
  (if ends inbox then [Ev_recv None] else []).
Proof.
  rewrite consume_trace, filter_app, flat_map_filter_turn.
  by destruct (ends inbox).
Qed.

Lemma main_on_query L argv inbox :
  filter on_query (trace (main L argv inbox)) =
  if setup_fails L argv then []
  else
    flat_map (fun query =>
                [Ev_recv (Some query);
                 Ev_z_query_reply query (keyexpr_of argv)
                                  (z_bytes_encode_from_string value);
                 Ev_z_drop_query query]) (served inbox) ++
    (if ends inbox then [Ev_recv None] else []).
Proof.
  destruct (setup_fails L argv) eqn:Hs.
  - rewrite main_setup_fails by done. apply failure_events_on_query.
  - rewrite main_setup_ok by done. cbn [trace fst].
    rewrite !filter_app, setup_events_on_query, consume_on_query.
    destruct (ends inbox); cbn [app]; by rewrite ?app_nil_r.
Qed.

Lemma main_replies L argv inbox :
  replies (trace (main L argv inbox)) =
  if setup_fails L argv then []
  else map (fun query =>
              (query, keyexpr_of argv, z_bytes_encode_from_string value))
           (served inbox).
Proof.
  rewrite <- replies_filter, main_on_query.
  destruct (setup_fails L argv); [done |].
  rewrite replies_app.
  replace (replies (if ends inbox then [Ev_recv None] else [])) with
    (@nil (z_query * z_view_keyexpr_t * z_bytes)) by by destruct (ends inbox).
  rewrite app_nil_r.
  induction (served inbox) as [| q queries IH]; [done |].
  cbn [flat_map map]. rewrite replies_app, IH. done.
Qed.

(** * The claims about [main] *)

(** C3: [main] calls [exit(-1)] on each of the four setup failures (the
    connect endpoint rejected by the configuration, the session not opened,
    the key expression invalid, the queryable not declared), and returns 0
    when the setup succeeds and the loop ends. *)
Theorem main_exit_codes L argv inbox :
  (config_rejected L argv = true ->
   result (main L argv inbox) = Exited (-1)) /\
  (open_failed L argv = true ->
   result (main L argv inbox) = Exited (-1)) /\
  (keyexpr_invalid L argv = true ->
   result (main L argv inbox) = Exited (-1)) /\
  (declare_failed L argv = true ->
   result (main L argv inbox) = Exited (-1)) /\
  (setup_fails L argv = false -> ends inbox = true ->
   result (main L argv inbox) = Done 0).
Proof.
  assert (Hfail : setup_fails L argv = true ->
                  result (main L argv inbox) = Exited (-1)).
  { intros H. by rewrite main_setup_fails. }
  unfold setup_fails in Hfail.
  split; [| split; [| split; [| split]]].
  - intros H. apply Hfail. by rewrite H.
  - intros H. apply Hfail. rewrite H. by rewrite orb_true_r.
  - intros H. apply Hfail. rewrite H. by rewrite orb_true_r.
  - intros H. apply Hfail. rewrite H. by rewrite orb_true_r.
  - intros Hs He. rewrite main_setup_ok by done. cbn. by rewrite He.
Qed.

Lemma main_exit_codes_witness :
  (config_rejected lib_bad_config argv_connect = true /\
   result (main lib_bad_config argv_connect []) = Exited (-1)) /\
  (open_failed lib_no_session argv_plain = true /\
   result (main lib_no_session argv_plain []) = Exited (-1)) /\
  (keyexpr_invalid lib_bad_keyexpr argv_plain = true /\
   result (main lib_bad_keyexpr argv_plain []) = Exited (-1)) /\
  (declare_failed lib_no_queryable argv_plain = true /\
   result (main lib_no_queryable argv_plain []) = Exited (-1)) /\
  (setup_fails lib_ok argv_plain = false /\
   ends [Some query_absent; None] = true /\
   result (main lib_ok argv_plain [Some query_absent; None]) = Done 0).
Proof.
  split; [| split; [| split; [| split]]].
  - split; [reflexivity |].
    apply (proj1 (main_exit_codes lib_bad_config argv_connect [])).
    reflexivity.
  - split; [reflexivity |].
    apply (proj1 (proj2 (main_exit_codes lib_no_session argv_plain []))).
    reflexivity.
  - split; [reflexivity |].
    apply (proj1 (proj2 (proj2
             (main_exit_codes lib_bad_keyexpr argv_plain [])))).
    reflexivity.
  - split; [reflexivity |].
    apply (proj1 (proj2 (proj2 (proj2
             (main_exit_codes lib_no_queryable argv_plain []))))).
    reflexivity.
  - split; [reflexivity |]. split; [reflexivity |].
    apply (proj2 (proj2 (proj2 (proj2
             (main_exit_codes lib_ok argv_plain
                              [Some query_absent; None])))));
      reflexivity.
Defined.

(** C4: in every run of [main], the calls that concern queries are, for
    each query that [recv] delivers, in order: the [recv], one
    [z_query_reply] for that query, and the drop of that query. No query is
    answered twice or dropped without an answer: a turn of the loop has
    one reply, then the drop, and a run has as many replies as queries
    processed, none when its setup fails. *)
Theorem one_reply_per_query L argv inbox :
  filter on_query (trace (main L argv inbox)) =
  (if setup_fails L argv then []
   else
     flat_map (fun query =>
                 [Ev_recv (Some query);
                  Ev_z_query_reply query (keyexpr_of argv)
                                   (z_bytes_encode_from_string value);
                  Ev_z_drop_query query]) (served inbox) ++
     (if ends inbox then [Ev_recv None] else [])) /\
  length (replies (trace (main L argv inbox))) =
  (if setup_fails L argv then 0%nat else length (served inbox)) /\
  forall ke query,
    filter on_query (trace (loop_body ke query)) =
    [Ev_z_query_reply query ke (z_bytes_encode_from_string value);
     Ev_z_drop_query query].
Proof.
  split; [apply main_on_query |]. split.
  - rewrite main_replies. destruct (setup_fails L argv); [done |].
    by rewrite length_map.
  - intros ke query. rewrite loop_body_trace, filter_app.
    by rewrite show_query_on_query.
Qed.

(** C5: when the setup has succeeded and [recv] delivers the null query
    after the queries [queries], the loop ends there, whatever the channel
    would deliver next: the run is the setup, one turn per query, the last
    [recv], then [z_undeclare_queryable], the drop of the channel and
    [z_close], in this order, and [main] returns 0. *)
Theorem end_marker_then_teardown L argv queries rest :
  setup_fails L argv = false ->
  main L argv (map Some queries ++ None :: rest) =
  (setup_events L argv ++
   flat_map (turn (keyexpr_of argv)) queries ++
   [Ev_recv None;
    Ev_z_undeclare_queryable; Ev_z_drop_channel; Ev_z_close],
   Done 0).
Proof.
  intros Hs. rewrite main_setup_ok by done.
  rewrite consume_trace, served_app_end, ends_app_end.
  unfold teardown_events. by rewrite <- !app_assoc.
Qed.

Lemma end_marker_then_teardown_witness :
  setup_fails lib_ok argv_plain = false /\
  main lib_ok argv_plain
       (map Some [query_one_byte] ++ None :: [Some query_absent]) =
  (setup_events lib_ok argv_plain ++
   flat_map (turn (keyexpr_of argv_plain)) [query_one_byte] ++
   [Ev_recv None;
    Ev_z_undeclare_queryable; Ev_z_drop_channel; Ev_z_close],
   Done 0).
Proof.
  split; [reflexivity |].
  apply (end_marker_then_teardown lib_ok argv_plain [query_one_byte]
           [Some query_absent]).
  reflexivity.
Defined.

Lemma step_bound sys a :
  (length (Fifo.items (channel sys)) <= Fifo.bound (channel sys))%nat ->
  Fifo.bound (channel (step sys a)) = Fifo.bound (channel sys) /\
  (length (Fifo.items (channel (step sys a))) <=
   Fifo.bound (channel sys))%nat.
Proof.
  intros Hle. destruct sys as [[items bound closed] enq rcv]. cbn in Hle.
  destruct a as [query | |]; cbn [step].
  - unfold query_handler, channel_send, Fifo.push, Fifo.full. cbn.
    case_bool_decide as Hfull; cbn; [done |].
    split; [done |]. rewrite length_app. cbn. lia.
  - unfold Fifo.pop. cbn.
    destruct closed; [done |]. destruct items; cbn in *; [done |].
    split; [done | lia].
  - done.
Qed.

Lemma run_bound schedule sys :
  (length (Fifo.items (channel sys)) <= Fifo.bound (channel sys))%nat ->
  Fifo.bound (channel (foldl step sys schedule)) = Fifo.bound (channel sys) /\
  (length (Fifo.items (channel (foldl step sys schedule))) <=
   Fifo.bound (channel sys))%nat.
Proof.
  revert sys. induction schedule as [| a schedule IH]; intros sys Hle.
  - done.
  - cbn [foldl]. destruct (step_bound sys a Hle) as [Hb Hl].
    rewrite <- Hb in Hl. destruct (IH (step sys a) Hl) as [Hb' Hl'].
    rewrite Hb in Hb', Hl'. done.
Qed.

(** C7: [main] creates the channel once, with the bound 16, on every run
    that gets as far as declaring the queryable, and on no other run; and
    the bound of that channel stays 16, with never more than 16 queries in
    it, whatever the handler and the loop do. *)
Theorem channel_bound_is_16 L argv inbox :
  filter is_fifo_new (trace (main L argv inbox)) =
  (if config_rejected L argv || open_failed L argv || keyexpr_invalid L argv
   then []
   else [Ev_zc_query_fifo_new 16]) /\
  forall schedule,
    Fifo.bound (channel (run schedule)) = 16%nat /\
    (length (Fifo.items (channel (run schedule))) <= 16)%nat.
Proof.
  split; [| intros schedule; apply (run_bound schedule system_init); cbn; lia].
  assert (Hloop : filter is_fifo_new (trace (consume (keyexpr_of argv) inbox))
                  = []).
  { rewrite consume_trace, filter_app.
    rewrite filter_flat_map_nil; [by destruct (ends inbox) |].
    intros query. unfold turn. rewrite loop_body_trace.
    unfold show_query, print_query.
    by destruct (0 <? z_bytes_len (z_query_payload query)). }
  destruct (setup_fails L argv) eqn:Hs.
  - rewrite main_setup_fails by done. cbn [trace fst].
    unfold setup_fails in Hs. unfold failure_events, config_events.
    destruct (config_rejected L argv), (open_failed L argv),
      (keyexpr_invalid L argv), (2 <? argc argv); done.
  - rewrite main_setup_ok by done. cbn [trace fst].
    rewrite !filter_app, Hloop.
    unfold setup_fails in Hs. unfold setup_events, teardown_events.
    destruct (config_rejected L argv), (open_failed L argv),
      (keyexpr_invalid L argv), (2 <? argc argv), (ends inbox); done.
Qed.

(** C8: the payloads of the replies of a run are all the bytes of the
    string "Queryable from C!", one for each query processed, whatever the
    parameters and the payload of the queries. *)
Theorem reply_payload_is_value L argv inbox :
  map snd (replies (trace (main L argv inbox))) =
  (if setup_fails L argv then []
   else replicate (length (served inbox))
                  (String.list_byte_of_string "Queryable from C!")) /\
  z_bytes_decode_into_string
    (String.list_byte_of_string "Queryable from C!") = "Queryable from C!".
Proof.
  split; [| done].
  rewrite main_replies. destruct (setup_fails L argv); [done |].
  induction (served inbox) as [| q queries IH]; [done |].
  cbn [map length replicate snd]. by rewrite IH.
Qed.

(** * The line printed for a query *)

Lemma substring_whole (s : string) :
  String.substring 0 (String.length s) s = s.
Proof. induction s as [| c s IH]; cbn; [done | by rewrite IH]. Qed.

Lemma int_of_size_t_small (n : Z) :
  0 <= n < 2 ^ 31 -> int_of_size_t n = n.
Proof.
  intros Hn. unfold int_of_size_t. cbn zeta.
  rewrite Z.mod_small by lia.
  destruct (n <? 2 ^ 31) eqn:Hlt; [done |].
  apply Z.ltb_ge in Hlt. lia.
Qed.

(** A string shorter than 2^31 with no NUL in it is printed whole. *)
Lemma print_string_whole (s : string) :
  z_string_len s < 2 ^ 31 -> until_nul s = s -> print_string s = s.
Proof.
  intros Hlen Hnul. unfold print_string, precision_s, z_string_data.
  rewrite int_of_size_t_small by (unfold z_string_len in *; lia).
  unfold z_string_len.
  destruct (Z.of_nat (String.length s) <? 0) eqn:Hneg; [done |].
  by rewrite Nat2Z.id, substring_whole.
Qed.

(** C1, as the code has it: the loop has two cases, by the length of the
    payload. A query without value and a query with a value of no bytes
    both get the line without value, and the loop does the same for any
    two such queries with the same key expression and parameters; a query
    with a value of at least one byte gets the line with the value, whose
    string is then dropped. The strings are printed with [%.*s]. *)
Theorem show_query_cases query :
  (query_value query = None \/ query_value query = Some [] ->
   show_query query =
   ([Ev_printf (line_plain (print_string (query_keyexpr query))
                           (print_string (query_parameters query)))],
    Done tt)) /\
  (forall b payload, query_value query = Some (b :: payload) ->
   show_query query =
   ([Ev_printf (line_with_value
                  (print_string (query_keyexpr query))
                  (print_string (query_parameters query))
                  (print_string (z_bytes_decode_into_string (b :: payload))));
     Ev_z_drop_string (z_bytes_decode_into_string (b :: payload))],
    Done tt)) /\
  (forall other,
     query_keyexpr other = query_keyexpr query ->
     query_parameters other = query_parameters query ->
     z_bytes_len (z_query_payload query) = 0 ->
     z_bytes_len (z_query_payload other) = 0 ->
     show_query other = show_query query).
Proof.
  unfold show_query, print_query. split; [| split].
  - unfold z_query_payload. by intros [-> | ->].
  - unfold z_query_payload. intros b payload ->. cbn [default].
    replace (0 <? z_bytes_len (b :: payload)) with true; [done |].
    unfold z_bytes_len. cbn [length]. symmetry. apply Z.ltb_lt. lia.
  - intros other Hk Hp Hq Ho. by rewrite Hk, Hp, Hq, Ho.
Qed.

Lemma show_query_cases_witness :
  (query_value query_absent = None /\
   show_query query_absent =
   ([Ev_printf (line_plain "demo/example/**" "")], Done tt)) /\
  (query_value query_empty = Some [] /\
   show_query query_empty =
   ([Ev_printf (line_plain "demo/example/**" "")], Done tt)) /\
  (query_value query_with_nul = Some [Byte.x41; Byte.x00; Byte.x42] /\
   show_query query_with_nul =
   ([Ev_printf (line_with_value "demo/example/**" "" "A");
     Ev_z_drop_string
       (z_bytes_decode_into_string [Byte.x41; Byte.x00; Byte.x42])],
    Done tt)) /\
  (query_keyexpr query_empty = query_keyexpr query_absent /\
   query_parameters query_empty = query_parameters query_absent /\
   z_bytes_len (z_query_payload query_absent) = 0 /\
   z_bytes_len (z_query_payload query_empty) = 0 /\
   show_query query_empty = show_query query_absent).
Proof.
  split; [| split; [| split]].
  - split; [reflexivity |].
    apply (proj1 (show_query_cases query_absent)). left. reflexivity.
  - split; [reflexivity |].
    apply (proj1 (show_query_cases query_empty)). right. reflexivity.
  - split; [reflexivity |].
    apply (proj1 (proj2 (show_query_cases query_with_nul))
             Byte.x41 [Byte.x00; Byte.x42]).
    reflexivity.
  - do 4 (split; [reflexivity |]).
    apply (proj2 (proj2 (show_query_cases query_absent)) query_empty);
      reflexivity.
Defined.

(** C1, as the claim states it, fails: the query without value and the
    query with an empty value differ in nothing but that, and the loop does
    the same for both, both in what it reads and prints and in the whole
    turn but for the query the calls are made on. *)
Lemma absent_and_empty_payload_same_case :
  query_value query_absent = None /\
  query_value query_empty = Some [] /\
  query_absent <> query_empty /\
  show_query query_absent = show_query query_empty /\
  trace (show_query query_empty) =
    [Ev_printf (line_plain "demo/example/**" "")] /\
  filter (fun e => Is_true (negb (on_query e)))
         (trace (loop_body keyexpr query_absent)) =
  filter (fun e => Is_true (negb (on_query e)))
         (trace (loop_body keyexpr query_empty)).
Proof. repeat split; done. Qed.

(** * The key expression of the replies *)

Lemma reply_then_drop_nil ke : reply_then_drop ke [].
Proof. intros i query k payload Hi. by rewrite lookup_nil in Hi. Qed.

Lemma reply_then_drop_app ke pre t :
  Forall (fun e => is_reply e = false) pre ->
  reply_then_drop ke t -> reply_then_drop ke (pre ++ t).
Proof.
  intros Hpre Ht i query k payload Hi.
  destruct (decide (i < length pre)%nat) as [Hlt | Hge].
  - rewrite lookup_app_l in Hi by done.
    by apply (Forall_lookup_1 _ _ _ _ Hpre) in Hi.
  - rewrite lookup_app_r in Hi by lia.
    apply Ht in Hi as [-> Hd]. split; [done |].
    rewrite lookup_app_r by lia.
    by replace (S i - length pre)%nat with (S (i - length pre)) by lia.
Qed.

Lemma reply_then_drop_cons ke query t :
  reply_then_drop ke t ->
  reply_then_drop ke
    (Ev_z_query_reply query ke (z_bytes_encode_from_string value) ::
     Ev_z_drop_query query :: t).
Proof.
  intros Ht [| [| i]] q k payload Hi; cbn in Hi.
  - by inversion Hi; subst.
  - done.
  - apply Ht in Hi as [-> Hd]. by split.
Qed.

Lemma show_query_no_reply query :
  Forall (fun e => is_reply e = false) (trace (show_query query)).
Proof.
  unfold show_query, print_query.
  destruct (0 <? z_bytes_len (z_query_payload query)); cbn;
    repeat constructor.
Qed.

Lemma reply_then_drop_turns ke queries t :
  reply_then_drop ke t ->
  reply_then_drop ke (flat_map (turn ke) queries ++ t).
Proof.
  intros Ht. induction queries as [| q queries IH]; [done |].
  cbn [flat_map]. unfold turn at 1. rewrite loop_body_trace.
  rewrite <- app_assoc.
  change (Ev_recv (Some q) :: ?l ++ ?r) with ((Ev_recv (Some q) :: l) ++ r).
  rewrite <- app_assoc.
  apply reply_then_drop_app.
  { constructor; [done | apply show_query_no_reply]. }
  by apply reply_then_drop_cons.
Qed.

Lemma failure_events_no_reply L argv :
  Forall (fun e => is_reply e = false) (failure_events L argv).
Proof.
  unfold failure_events, config_events.
  destruct (config_rejected L argv), (open_failed L argv),
    (keyexpr_invalid L argv), (2 <? argc argv); cbn; repeat constructor.
Qed.

Lemma setup_events_no_reply L argv :
  Forall (fun e => is_reply e = false) (setup_events L argv).
Proof.
  unfold setup_events. destruct (2 <? argc argv); cbn; repeat constructor.
Qed.

Lemma main_reply_then_drop L argv inbox :
  reply_then_drop (keyexpr_of argv) (trace (main L argv inbox)).
Proof.
  destruct (setup_fails L argv) eqn:Hs.
  - rewrite main_setup_fails by done. cbn [trace fst].
    rewrite <- (app_nil_r (failure_events L argv)).
    apply reply_then_drop_app;
      [apply failure_events_no_reply | apply reply_then_drop_nil].
  - rewrite main_setup_ok by done. cbn [trace fst].
    apply reply_then_drop_app; [apply setup_events_no_reply |].
    rewrite consume_trace, <- app_assoc.
    apply reply_then_drop_turns.
    rewrite <- (app_nil_r (_ ++ _)).
    apply reply_then_drop_app; [| apply reply_then_drop_nil].
    unfold teardown_events. destruct (ends inbox); cbn; repeat constructor.
Qed.

(** C2, as the claim states it, fails: with the default key expression, a
    query sent on [demo/example/**] is answered by a reply addressed by
    [demo/example/zenoh-c-queryable]. *)
Lemma reply_not_on_query_keyexpr :
  ~ (forall query ke payload,
       Ev_z_query_reply query ke payload
         ∈ trace (main lib_ok argv_plain [Some query_absent; None]) ->
       ke = query_keyexpr query).
Proof.
  intros H.
  specialize (H query_absent "demo/example/zenoh-c-queryable"
                (z_bytes_encode_from_string value)).
  assert (Hne : "demo/example/zenoh-c-queryable" <>
                query_keyexpr query_absent) by done.
  apply Hne, H.
  by apply (list_elem_of_lookup_2 _ 11%nat).
Qed.

(** * The handler and the channel *)

Lemma push_not_full {A} (x : A) (q : Fifo.fifo A) :
  Fifo.full q = false ->
  Fifo.push x q =
  Some {| Fifo.items := Fifo.items q ++ [x];
          Fifo.bound := Fifo.bound q;
          Fifo.closed := Fifo.closed q |}.
Proof. unfold Fifo.push. by intros ->. Qed.

Lemma push_full {A} (x : A) (q : Fifo.fifo A) :
  Fifo.full q = true -> Fifo.push x q = None.
Proof. unfold Fifo.push. by intros ->. Qed.




Lemma step_invariant sys a :
  enqueued sys = dequeued sys ++ Fifo.items (channel sys) ->
  Forall (fun oquery => Is_true (z_check oquery)) (Fifo.items (channel sys)) ->
  enqueued (step sys a) = dequeued (step sys a) ++
                          Fifo.items (channel (step sys a)) /\
  Forall (fun oquery => Is_true (z_check oquery))
         (Fifo.items (channel (step sys a))).
Proof.
  intros Hq Hv. destruct sys as [[items bound closed] enq rcv].
  unfold dequeued in *. cbn in Hq, Hv.
  destruct a as [query | |]; cbn [step].
  - unfold query_handler, channel_send.
    destruct (Fifo.full (Fifo.Channel items bound closed)) eqn:Hfull.
    + rewrite push_full by done. cbn. rewrite drop_all, app_nil_r. done.
    + rewrite push_not_full by done. cbn. rewrite drop_app_length.
      split; [by rewrite Hq, <- app_assoc |].
      apply Forall_app. split; [done |]. by repeat constructor.
  - unfold Fifo.pop. cbn. destruct closed; cbn.
    + rewrite filter_app. cbn. rewrite app_nil_r. done.
    + destruct items as [| oquery items]; cbn; [done |].
      inversion Hv as [| ? ? Hvalid Hrest]; subst.
      split; [| done].
      rewrite filter_app, filter_cons_True by done. cbn.
      by rewrite <- app_assoc.
  - done.
Qed.

Lemma run_invariant schedule sys :
  enqueued sys = dequeued sys ++ Fifo.items (channel sys) ->
  Forall (fun oquery => Is_true (z_check oquery)) (Fifo.items (channel sys)) ->
  enqueued (foldl step sys schedule) =
    dequeued (foldl step sys schedule) ++
    Fifo.items (channel (foldl step sys schedule)).
Proof.
  revert sys. induction schedule as [| a schedule IH]; intros sys Hq Hv.
  - done.
  - cbn [foldl]. destruct (step_invariant sys a Hq Hv) as [Hq' Hv'].
    by apply IH.
Qed.

Lemma served_prefix_valid inbox :
  map Some (served inbox) `prefix_of`
  filter (fun oquery => Is_true (z_check oquery)) inbox.
Proof.
  induction inbox as [| [query |] inbox IH]; cbn [served map].
  - done.
  - rewrite filter_cons_True by done. by apply prefix_cons.
  - apply prefix_nil.
Qed.

(** C9: under every schedule of deliveries, [recv]s and closing, the
    queries that [recv] hands out are, in order, the first of those that
    the handler has put into the channel: of two queries handed out, the
    one handed out first was put in first. So are the queries that the
    loop of [main] processes. *)
Theorem channel_fifo_order schedule :
  dequeued (run schedule) `prefix_of` enqueued (run schedule) /\
  (forall (i j : nat) o1 o2,
     (i < j)%nat ->
     dequeued (run schedule) !! i = Some o1 ->
     dequeued (run schedule) !! j = Some o2 ->
     enqueued (run schedule) !! i = Some o1 /\
     enqueued (run schedule) !! j = Some o2) /\
  map Some (served (inbox_of schedule)) `prefix_of` enqueued (run schedule).
Proof.
  assert (Hp : dequeued (run schedule) `prefix_of` enqueued (run schedule)).
  { unfold run. rewrite (run_invariant schedule system_init) by done.
    by apply prefix_app_r. }
  split; [done |]. split.
  - intros i j o1 o2 _ H1 H2.
    split; by eapply prefix_lookup_Some.
  - etrans; [apply served_prefix_valid | exact Hp].
Qed.

Lemma channel_fifo_order_witness :
  (0 < 1)%nat /\
  dequeued (run [Deliver query_absent; Deliver query_one_byte;
                 Receive; Receive]) !! 0%nat = Some (Some query_absent) /\
  dequeued (run [Deliver query_absent; Deliver query_one_byte;
                 Receive; Receive]) !! 1%nat = Some (Some query_one_byte) /\
  enqueued (run [Deliver query_absent; Deliver query_one_byte;
                 Receive; Receive]) !! 0%nat = Some (Some query_absent) /\
  enqueued (run [Deliver query_absent; Deliver query_one_byte;
                 Receive; Receive]) !! 1%nat = Some (Some query_one_byte).
Proof.
  split; [lia |]. split; [reflexivity |]. split; [reflexivity |].
  apply (proj1 (proj2 (channel_fifo_order
                         [Deliver query_absent; Deliver query_one_byte;
                          Receive; Receive])) 0%nat 1%nat);
    [lia | reflexivity | reflexivity].
Defined.

(** * [check_project_usage] *)

Import Helpers Usage.

Lemma set_parent_variable name value parent :
  String.prefix "ENV{" name = false ->
  set_parent [name; value; "PARENT_SCOPE"] parent =
  {| normal := <[name := value]> (normal parent);
     cached := cached parent |}.
Proof.
  intros Hpre. unfold set_parent, set_form_of, has_last. rewrite Hpre.
  cbn [andb length last Nat.sub].
  rewrite (bool_decide_eq_false_2 (3%nat = 1%nat)) by lia.
  rewrite (bool_decide_eq_false_2 (3%nat = 2%nat)) by lia.
  rewrite bool_decide_eq_true_2 by done.
  done.
Qed.

(** With [PARENT_SCOPE] last and a value before it, [set] is on the
    environment or on the parent scope. *)
Lemma set_form_of_parent_scope l value :
  match set_form_of (l ++ [value; "PARENT_SCOPE"]) with
  | SetEnv _ _ | UnsetParent _ | SetParent _ _ => True
  | _ => False
  end.
Proof.
  assert (Hlast : has_last "PARENT_SCOPE" (l ++ [value; "PARENT_SCOPE"])
                  = true).
  { unfold has_last. apply bool_decide_eq_true_2.
    change [value; "PARENT_SCOPE"] with ([value] ++ ["PARENT_SCOPE"]).
    by rewrite app_assoc, last_snoc. }
  destruct l as [| name l]; cbn [app] in *.
  - unfold set_form_of. rewrite Hlast.
    destruct (String.prefix "ENV{" value && _); [done |].
    cbn [length].
    rewrite (bool_decide_eq_false_2 (2%nat = 1%nat)) by lia.
    by rewrite (bool_decide_eq_true_2 (2%nat = 2%nat)).
  - unfold set_form_of. rewrite Hlast.
    destruct (String.prefix "ENV{" name && _); [done |].
    destruct (bool_decide (_ = 1%nat)) eqn:Hone.
    { apply bool_decide_eq_true_1 in Hone. cbn in Hone.
      rewrite length_app in Hone. cbn in Hone. lia. }
    by destruct (bool_decide (_ = 2%nat)).
Qed.

Section UsageOutputs.

Variable elements : string -> list string.
Variable automatic : string -> string -> gmap string string.
Variable other_condition :
  list string -> gmap string string -> bool + string.

Lemma expand_is_root caller is_root is_ide :
  expand (function_scope automatic caller is_root is_ide) "is_root" = is_root.
Proof. unfold expand, function_scope. by simplify_map_eq. Qed.

Lemma expand_is_ide caller is_root is_ide :
  expand (function_scope automatic caller is_root is_ide) "is_ide" = is_ide.
Proof. unfold expand, function_scope. by simplify_map_eq. Qed.

(** The variables of the caller after the call, when the arguments are
    names of variables. *)
Lemma check_project_usage_named is_root is_ide caller :
  names_variable elements is_root -> names_variable elements is_ide ->
  let vars := function_scope automatic caller is_root is_ide in
  let base := <[is_ide := FALSE]> (<[is_root := FALSE]> (normal caller)) in
  state (check_project_usage elements automatic other_condition
           is_root is_ide caller) =
  {| normal :=
       match source_is_current elements other_condition vars with
       | inl true =>
           if binary_is_build vars
           then <[is_ide := TRUE]> (<[is_root := TRUE]> base)
           else <[is_root := TRUE]> base
       | _ => base
       end;
     cached := cached caller |}.
Proof.
  intros [Hroot Hroot'] [Hide Hide']. cbn zeta. unfold check_project_usage.
  rewrite expand_is_root, expand_is_ide, Hroot, Hide.
  cbn [app]. rewrite !set_parent_variable by done.
  destruct (source_is_current _ _ _) as [[|] | text]; [| done | done].
  by destruct (binary_is_build _).
Qed.

(** C10: after [check_project_usage], called with the names of two
    variables, both variables are set in the parent scope, each to TRUE
    or FALSE; the one named by [is_ide] is TRUE only if the one named by
    [is_root] is; and when the condition on the source directories is not
    true, both are FALSE. *)
Theorem check_project_usage_outputs is_root is_ide caller :
  names_variable elements is_root -> names_variable elements is_ide ->
  let r := check_project_usage elements automatic other_condition
             is_root is_ide caller in
  let parent := normal (state r) in
  (parent !! is_root = Some TRUE \/ parent !! is_root = Some FALSE) /\
  (parent !! is_ide = Some TRUE \/ parent !! is_ide = Some FALSE) /\
  (parent !! is_ide = Some TRUE -> parent !! is_root = Some TRUE) /\
  (source_is_current elements other_condition
     (function_scope automatic caller is_root is_ide) <> inl true ->
   parent !! is_root = Some FALSE /\ parent !! is_ide = Some FALSE).
Proof.
  intros Hroot Hide. cbn zeta.
  rewrite (check_project_usage_named _ _ _ Hroot Hide). cbn [normal].
  destruct (source_is_current _ _ _) as [[|] | text];
    [destruct (binary_is_build _) | |];
    destruct (decide (is_root = is_ide)) as [-> | Hne];
    simplify_map_eq; repeat split; auto; done.
Qed.

End UsageOutputs.

Lemma check_project_usage_outputs_witness :
  (names_variable elements_plain "ZENOHC_IS_ROOT" /\
   names_variable elements_plain "ZENOHC_IS_IDE") /\
  (normal (state (check_project_usage elements_plain automatic_two
                    condition_unknown "ZENOHC_IS_ROOT" "ZENOHC_IS_IDE"
                    scope_ide)) !! "ZENOHC_IS_IDE" = Some TRUE /\
   normal (state (check_project_usage elements_plain automatic_two
                    condition_unknown "ZENOHC_IS_ROOT" "ZENOHC_IS_IDE"
                    scope_ide)) !! "ZENOHC_IS_ROOT" = Some TRUE) /\
  (source_is_current elements_plain condition_unknown
     (function_scope automatic_two scope_included
        "ZENOHC_IS_ROOT" "ZENOHC_IS_IDE") <> inl true /\
   normal (state (check_project_usage elements_plain automatic_two
                    condition_unknown "ZENOHC_IS_ROOT" "ZENOHC_IS_IDE"
                    scope_included)) !! "ZENOHC_IS_ROOT" = Some FALSE /\
   normal (state (check_project_usage elements_plain automatic_two
                    condition_unknown "ZENOHC_IS_ROOT" "ZENOHC_IS_IDE"
                    scope_included)) !! "ZENOHC_IS_IDE" = Some FALSE).
Proof.
  assert (Hroot : names_variable elements_plain "ZENOHC_IS_ROOT")
    by (split; by vm_compute).
  assert (Hide : names_variable elements_plain "ZENOHC_IS_IDE")
    by (split; by vm_compute).
  pose proof (check_project_usage_outputs elements_plain automatic_two
                condition_unknown "ZENOHC_IS_ROOT" "ZENOHC_IS_IDE" scope_ide
                Hroot Hide)
    as (_ & _ & Hup & _).
  pose proof (check_project_usage_outputs elements_plain automatic_two
                condition_unknown "ZENOHC_IS_ROOT" "ZENOHC_IS_IDE"
                scope_included Hroot Hide)
    as (_ & _ & _ & Hinc).
  split; [split; [exact Hroot | exact Hide] |]. split.
  - assert (He : normal (state (check_project_usage elements_plain
                                  automatic_two condition_unknown
                                  "ZENOHC_IS_ROOT" "ZENOHC_IS_IDE"
                                  scope_ide)) !! "ZENOHC_IS_IDE" = Some TRUE)
      by (vm_compute; reflexivity).
    split; [exact He | exact (Hup He)].
  - assert (Hs : source_is_current elements_plain condition_unknown
                   (function_scope automatic_two scope_included
                      "ZENOHC_IS_ROOT" "ZENOHC_IS_IDE") <> inl true)
      by (vm_compute; discriminate).
    split; [exact Hs | exact (Hinc Hs)].
Defined.

(** * More on [main]: how it ends, what it reads, what it leaves open *)

Lemma main_trace L argv inbox :
  trace (main L argv inbox) =
  if setup_fails L argv then failure_events L argv
  else setup_events L argv ++
       flat_map (turn (keyexpr_of argv)) (served inbox) ++
       (if ends inbox then Ev_recv None :: teardown_events else []).
Proof.
  destruct (setup_fails L argv) eqn:Hs.
  - by rewrite main_setup_fails.
  - rewrite main_setup_ok by done. cbn [trace fst].
    rewrite consume_trace, <- !app_assoc. by destruct (ends inbox).
Qed.

(** Shows that the turns of the loop have no call of a kind that is none
    of theirs. *)
Ltac turns_have_none :=
  apply filter_flat_map_nil;
  intros query; unfold turn; rewrite loop_body_trace;
  unfold show_query, print_query;
  by destruct (0 <? z_bytes_len (z_query_payload query)).

(** Takes apart a membership in a list of calls that is written out. *)
Ltac in_calls H :=
  repeat first
    [ apply elem_of_nil in H; destruct H
    | apply elem_of_cons in H as [H | H]; [try discriminate H |] ].

(** X1: how [main] ends, in full: it calls [exit(-1)] exactly when a step
    of the setup fails, it returns, and then 0, exactly when the setup
    succeeds and [recv] delivers the null query, and otherwise it stays in
    [recv]. *)
Theorem main_outcome L argv inbox :
  result (main L argv inbox) =
  if setup_fails L argv then Exited (-1)
  else if ends inbox then Done 0
  else Blocked.
Proof.
  destruct (setup_fails L argv) eqn:Hs.
  - by rewrite main_setup_fails.
  - by rewrite main_setup_ok.
Qed.

(** X2: the teardown calls ([z_undeclare_queryable], the drop of the
    channel, [z_close]) are made once each, in this order, when the setup
    has succeeded and the loop has ended, and in no other run: not when the
    setup fails, and not while [main] waits in [recv]. *)
Theorem teardown_only_after_loop L argv inbox :
  filter is_teardown (trace (main L argv inbox)) =
  if setup_fails L argv || negb (ends inbox) then []
  else [Ev_z_undeclare_queryable; Ev_z_drop_channel; Ev_z_close].
Proof.
  rewrite main_trace.
  destruct (setup_fails L argv) eqn:Hs; cbn [orb].
  - unfold failure_events, config_events.
    by destruct (config_rejected L argv), (open_failed L argv),
      (keyexpr_invalid L argv), (2 <? argc argv).
  - rewrite !filter_app.
    replace (filter is_teardown
               (flat_map (turn (keyexpr_of argv)) (served inbox)))
      with (@nil event) by (symmetry; turns_have_none).
    unfold setup_events, teardown_events.
    by destruct (2 <? argc argv), (ends inbox).
Qed.

(** X3: when the session has been opened and a later step of the setup
    fails (the key expression is refused, or the queryable is), [main]
    exits with the session open: [z_open] is in the run and [z_close] is
    not. *)
Theorem session_left_open_on_late_failure L argv inbox :
  config_rejected L argv = false ->
  open_failed L argv = false ->
  (keyexpr_invalid L argv || declare_failed L argv) = true ->
  Ev_z_open (config_of L argv) ∈ trace (main L argv inbox) /\
  (Ev_z_close ∉ trace (main L argv inbox)) /\
  result (main L argv inbox) = Exited (-1).
Proof.
  intros Hc Ho Hl.
  assert (Hs : setup_fails L argv = true).
  { unfold setup_fails. rewrite Hc, Ho. cbn [orb]. done. }
  rewrite main_trace, main_setup_fails, Hs by done. cbn [result snd].
  unfold failure_events, config_events. rewrite Hc, Ho.
  split; [| split; [| done]].
  - destruct (keyexpr_invalid L argv), (2 <? argc argv); cbn [app];
      repeat constructor.
  - intros Hin.
    destruct (keyexpr_invalid L argv), (2 <? argc argv); cbn [app] in Hin;
      in_calls Hin.
Qed.

Lemma session_left_open_on_late_failure_witness :
  (config_rejected lib_no_queryable argv_connect = false /\
   open_failed lib_no_queryable argv_connect = false /\
   (keyexpr_invalid lib_no_queryable argv_connect ||
      declare_failed lib_no_queryable argv_connect) = true) /\
  Ev_z_open (config_of lib_no_queryable argv_connect)
    ∈ trace (main lib_no_queryable argv_connect []) /\
  (Ev_z_close ∉ trace (main lib_no_queryable argv_connect [])) /\
  result (main lib_no_queryable argv_connect []) = Exited (-1).
Proof.
  split; [split; [reflexivity | split; reflexivity] |].
  apply (session_left_open_on_late_failure lib_no_queryable argv_connect []);
    reflexivity.
Defined.

(** X4: the session is opened at most once, and only when the
    configuration has not been refused; the endpoint is inserted, under
    the connect key, exactly when there is a second argument, and the
    session is then opened with it. *)
Theorem session_opened_with_endpoint L argv inbox :
  filter is_insert_json (trace (main L argv inbox)) =
  (if 2 <? argc argv
   then [Ev_zc_config_insert_json (Z_CONFIG_CONNECT_KEY L) (nth 2 argv "")]
   else []) /\
  filter is_open (trace (main L argv inbox)) =
  (if config_rejected L argv then []
   else [Ev_z_open (if 2 <? argc argv
                    then [(Z_CONFIG_CONNECT_KEY L, nth 2 argv "")]
                    else [])]).
Proof.
  rewrite main_trace.
  destruct (setup_fails L argv) eqn:Hs.
  - unfold setup_fails in Hs.
    unfold failure_events, config_events, config_of, config_rejected in *.
    destruct (2 <? argc argv); cbn [andb] in *;
      destruct (rc_zc_config_insert_json L (Z_CONFIG_CONNECT_KEY L)
                  (nth 2 argv "") <? 0),
        (open_failed L argv), (keyexpr_invalid L argv); done.
  - rewrite !filter_app.
    replace (filter is_insert_json
               (flat_map (turn (keyexpr_of argv)) (served inbox)))
      with (@nil event) by (symmetry; turns_have_none).
    replace (filter is_open
               (flat_map (turn (keyexpr_of argv)) (served inbox)))
      with (@nil event) by (symmetry; turns_have_none).
    unfold setup_fails in Hs.
    unfold setup_events, teardown_events, config_of, config_rejected in *.
    destruct (2 <? argc argv); cbn [andb] in *;
      destruct (rc_zc_config_insert_json L (Z_CONFIG_CONNECT_KEY L)
                  (nth 2 argv "") <? 0),
        (ends inbox); done.
Qed.

Lemma main_reads_two_arguments L argv argv' inbox :
  (1 <? argc argv) = (1 <? argc argv') ->
  (2 <? argc argv) = (2 <? argc argv') ->
  nth 1 argv keyexpr = nth 1 argv' keyexpr ->
  nth 2 argv "" = nth 2 argv' "" ->
  main L argv inbox = main L argv' inbox.
Proof.
  intros H1 H2 H3 H4. unfold main.
  fold (argc argv). fold (argc argv').
  by rewrite H1, H2, H3, H4.
Qed.

(** X5: of its command line, [main] reads the first two arguments and
    nothing else: the arguments after the second make no difference, and
    neither does the name of the program. *)
Theorem main_ignores_other_arguments L argv inbox :
  main L argv inbox = main L (take 3 argv) inbox /\
  forall name name' args,
    main L (name :: args) inbox = main L (name' :: args) inbox.
Proof.
  split.
  - destruct argv as [| a0 [| a1 [| a2 rest]]]; try done.
    apply main_reads_two_arguments; unfold argc; cbn [take length nth].
    + symmetry. transitivity true; [| symmetry]; apply Z.ltb_lt; lia.
    + symmetry. transitivity true; [| symmetry]; apply Z.ltb_lt; lia.
    + done.
    + done.
  - intros name name' args. by apply main_reads_two_arguments.
Qed.

Lemma main_keyexpr_calls L argv inbox :
  filter is_view_keyexpr (trace (main L argv inbox)) =
  (if config_rejected L argv || open_failed L argv then []
   else [Ev_z_view_keyexpr_from_string (keyexpr_of argv)]) /\
  filter is_declare (trace (main L argv inbox)) =
  (if config_rejected L argv || open_failed L argv || keyexpr_invalid L argv
   then []
   else [Ev_z_declare_queryable (keyexpr_of argv)]).
Proof.
  rewrite main_trace.
  destruct (setup_fails L argv) eqn:Hs.
  - unfold setup_fails in Hs. unfold failure_events, config_events.
    by destruct (config_rejected L argv), (open_failed L argv),
      (keyexpr_invalid L argv), (2 <? argc argv).
  - rewrite !filter_app.
    replace (filter is_view_keyexpr
               (flat_map (turn (keyexpr_of argv)) (served inbox)))
      with (@nil event) by (symmetry; turns_have_none).
    replace (filter is_declare
               (flat_map (turn (keyexpr_of argv)) (served inbox)))
      with (@nil event) by (symmetry; turns_have_none).
    unfold setup_fails in Hs. unfold setup_events, teardown_events.
    by destruct (config_rejected L argv), (open_failed L argv),
      (keyexpr_invalid L argv), (2 <? argc argv), (ends inbox).
Qed.

(** X6: the queryable is declared only on a key expression that
    [z_view_keyexpr_from_string] has been called on and has accepted: the
    first argument of the program when there is one, the default
    otherwise. *)
Theorem declared_on_checked_keyexpr L argv inbox ke :
  Ev_z_declare_queryable ke ∈ trace (main L argv inbox) ->
  ke = (if 1 <? argc argv then nth 1 argv keyexpr else keyexpr) /\
  Ev_z_view_keyexpr_from_string ke ∈ trace (main L argv inbox) /\
  0 <= rc_z_view_keyexpr_from_string L ke.
Proof.
  intros Hin. fold (keyexpr_of argv).
  destruct (main_keyexpr_calls L argv inbox) as [Hview Hdecl].
  assert (Hf : Ev_z_declare_queryable ke
                 ∈ filter is_declare (trace (main L argv inbox))).
  { by apply list_elem_of_filter. }
  rewrite Hdecl in Hf.
  destruct (config_rejected L argv), (open_failed L argv),
    (keyexpr_invalid L argv) eqn:Hk; cbn [orb] in *;
    try by apply elem_of_nil in Hf.
  apply list_elem_of_singleton in Hf. injection Hf as ->.
  split; [done |]. split.
  - apply (list_elem_of_filter is_view_keyexpr). rewrite Hview.
    by apply list_elem_of_singleton.
  - unfold keyexpr_invalid in Hk. by apply Z.ltb_ge.
Qed.

Lemma declared_on_checked_keyexpr_witness :
  Ev_z_declare_queryable "demo/example/**"
    ∈ trace (main lib_ok argv_connect [None]) /\
  "demo/example/**" =
    (if 1 <? argc argv_connect then nth 1 argv_connect keyexpr else keyexpr) /\
  Ev_z_view_keyexpr_from_string "demo/example/**"
    ∈ trace (main lib_ok argv_connect [None]) /\
  0 <= rc_z_view_keyexpr_from_string lib_ok "demo/example/**".
Proof.
  assert (Hin : Ev_z_declare_queryable "demo/example/**"
                  ∈ trace (main lib_ok argv_connect [None])).
  { by apply (list_elem_of_lookup_2 _ 8%nat). }
  split; [exact Hin |].
  exact (declared_on_checked_keyexpr lib_ok argv_connect [None]
           "demo/example/**" Hin).
Defined.

(** C2, as the code has it: every query that the loop processes is
    answered by one [z_query_reply] addressed by the global [ke], the view
    on the key expression that the queryable is declared on (the first
    argument of the program, or the default), and the call next to each
    reply is the drop of the query it answers. The key expression of the
    query itself is not what the reply is addressed by. *)
Theorem reply_on_declared_keyexpr L argv inbox :
  replies (trace (main L argv inbox)) =
    (if setup_fails L argv then []
     else map (fun query =>
                 (query, keyexpr_of argv, z_bytes_encode_from_string value))
              (served inbox)) /\
  filter is_declare (trace (main L argv inbox)) =
    (if config_rejected L argv || open_failed L argv || keyexpr_invalid L argv
     then []
     else [Ev_z_declare_queryable (keyexpr_of argv)]) /\
  (forall (i : nat) query ke payload,
     trace (main L argv inbox) !! i =
       Some (Ev_z_query_reply query ke payload) ->
     trace (main L argv inbox) !! S i = Some (Ev_z_drop_query query)).
Proof.
  split; [apply main_replies |]. split.
  - apply (proj2 (main_keyexpr_calls L argv inbox)).
  - intros i query ke payload Hi.
    by destruct (main_reply_then_drop L argv inbox i query ke payload Hi).
Qed.

Lemma reply_on_declared_keyexpr_witness :
  trace (main lib_ok argv_plain [Some query_absent; None]) !! 11%nat =
    Some (Ev_z_query_reply query_absent "demo/example/zenoh-c-queryable"
                           (z_bytes_encode_from_string value)) /\
  trace (main lib_ok argv_plain [Some query_absent; None]) !! 12%nat =
    Some (Ev_z_drop_query query_absent).
Proof.
  split; [reflexivity |].
  apply (proj2 (proj2 (reply_on_declared_keyexpr lib_ok argv_plain
                         [Some query_absent; None]))
           11%nat query_absent "demo/example/zenoh-c-queryable"
           (z_bytes_encode_from_string value)).
  reflexivity.
Defined.

Lemma served_app_open inbox more :
  ends inbox = false ->
  served (inbox ++ more) = served inbox ++ served more /\
  ends (inbox ++ more) = ends more.
Proof.
  induction inbox as [| [query |] inbox IH]; intros He; cbn in *.
  - done.
  - destruct (IH He) as [-> ->]. done.
  - done.
Qed.

Lemma served_app_ended inbox more :
  ends inbox = true ->
  served (inbox ++ more) = served inbox /\ ends (inbox ++ more) = true.
Proof.
  induction inbox as [| [query |] inbox IH]; intros He; cbn in *.
  - done.
  - destruct (IH He) as [-> ->]. done.
  - done.
Qed.

(** X7: what [main] does depends on the queries delivered so far only.
    While the end marker has not come, the calls made are a prefix of the
    calls of every run in which the channel delivers more; once it has
    come, what the channel would deliver next changes nothing. *)
Theorem main_follows_deliveries L argv inbox more :
  (ends inbox = false ->
   trace (main L argv inbox) `prefix_of` trace (main L argv (inbox ++ more))) /\
  (ends inbox = true ->
   main L argv (inbox ++ more) = main L argv inbox).
Proof.
  split; intros He.
  - rewrite !main_trace. destruct (setup_fails L argv); [done |].
    destruct (served_app_open inbox more He) as [-> ->].
    rewrite He, app_nil_r, flat_map_app, <- app_assoc.
    apply prefix_app, prefix_app_r. done.
  - rewrite (prog_eq (main L argv (inbox ++ more))),
      (prog_eq (main L argv inbox)).
    rewrite !main_trace, !main_outcome.
    destruct (served_app_ended inbox more He) as [-> ->].
    by rewrite He.
Qed.

Lemma main_follows_deliveries_witness :
  (ends [Some query_absent] = false /\
   trace (main lib_ok argv_plain [Some query_absent])
     `prefix_of`
   trace (main lib_ok argv_plain ([Some query_absent] ++ [None]))) /\
  (ends [None] = true /\
   main lib_ok argv_plain ([None] ++ [Some query_absent]) =
   main lib_ok argv_plain [None]).
Proof.
  split; (split; [reflexivity |]).
  - apply (proj1 (main_follows_deliveries lib_ok argv_plain
                    [Some query_absent] [None])).
    reflexivity.
  - apply (proj2 (main_follows_deliveries lib_ok argv_plain
                    [None] [Some query_absent])).
    reflexivity.
Defined.

Lemma turn_drop_string ke query :
  filter is_drop_string (turn ke query) =
  map Ev_z_drop_string (decoded [query]).
Proof.
  unfold turn, decoded. rewrite loop_body_trace.
  unfold show_query, print_query.
  destruct (0 <? z_bytes_len (z_query_payload query)) eqn:Hlen.
  - rewrite (filter_cons_True _ query) by (rewrite Hlen; exact I). done.
  - rewrite (filter_cons_False _ query) by (rewrite Hlen; intros []). done.
Qed.

Lemma decoded_cons query queries :
  decoded (query :: queries) = decoded [query] ++ decoded queries.
Proof.
  unfold decoded. rewrite <- map_app. f_equal.
  change (query :: queries) with ([query] ++ queries).
  by rewrite filter_app.
Qed.

(** X8: the strings the loop drops are the decoded payloads of the queries
    processed that have at least one byte, each once and in the order of
    the queries; a query with no byte of payload has no string decoded or
    dropped for it. *)
Theorem decoded_payloads_dropped L argv inbox :
  filter is_drop_string (trace (main L argv inbox)) =
  if setup_fails L argv then []
  else map Ev_z_drop_string (decoded (served inbox)).
Proof.
  rewrite main_trace. destruct (setup_fails L argv) eqn:Hs.
  - unfold failure_events, config_events.
    by destruct (config_rejected L argv), (open_failed L argv),
      (keyexpr_invalid L argv), (2 <? argc argv).
  - rewrite !filter_app.
    replace (filter is_drop_string (setup_events L argv)) with (@nil event)
      by (unfold setup_events; by destruct (2 <? argc argv)).
    replace (filter is_drop_string
               (if ends inbox then Ev_recv None :: teardown_events else []))
      with (@nil event) by by destruct (ends inbox).
    rewrite app_nil_r. cbn [app].
    induction (served inbox) as [| q queries IH]; [done |].
    cbn [flat_map]. rewrite filter_app, turn_drop_string, IH.
    by rewrite (decoded_cons q queries), map_app.
Qed.

(** * The handler, the channel and the loop together *)

Lemma deliver_all queries sys :
  (length (Fifo.items (channel sys)) + length queries <=
   Fifo.bound (channel sys))%nat ->
  foldl step sys (deliveries queries) =
  {| channel := {| Fifo.items := Fifo.items (channel sys) ++ map Some queries;
                   Fifo.bound := Fifo.bound (channel sys);
                   Fifo.closed := Fifo.closed (channel sys) |};
     enqueued := enqueued sys ++ map Some queries;
     received := received sys |}.
Proof.
  revert sys. induction queries as [| q queries IH]; intros sys Hroom.
  - destruct sys as [[items bound closed] enq rcv]. cbn.
    by rewrite !app_nil_r.
  - cbn [deliveries map foldl]. fold (deliveries queries).
    destruct sys as [[items bound closed] enq rcv]. cbn in Hroom.
    assert (Hfull : Fifo.full (Fifo.Channel items bound closed) = false).
    { unfold Fifo.full. cbn. apply bool_decide_eq_false. lia. }
    rewrite IH.
    + cbn [step]. unfold query_handler, channel_send.
      rewrite push_not_full by done. cbn.
      rewrite drop_app_length, <- !app_assoc. done.
    + cbn [step]. unfold query_handler, channel_send.
      rewrite push_not_full by done. cbn. rewrite length_app. cbn. lia.
Qed.

Lemma receive_all queries rest sys :
  Fifo.closed (channel sys) = false ->
  Fifo.items (channel sys) = map Some queries ++ rest ->
  foldl step sys (replicate (length queries) Receive) =
  {| channel := {| Fifo.items := rest;
                   Fifo.bound := Fifo.bound (channel sys);
                   Fifo.closed := false |};
     enqueued := enqueued sys;
     received := received sys ++ map Some queries |}.
Proof.
  revert sys. induction queries as [| q queries IH]; intros sys Hopen Hitems.
  - destruct sys as [[items bound closed] enq rcv]. cbn in *. subst.
    by rewrite app_nil_r.
  - destruct sys as [[items bound closed] enq rcv]. cbn in Hopen, Hitems.
    subst. cbn [length replicate foldl step].
    unfold Fifo.pop. cbn. rewrite IH by done. cbn.
    by rewrite <- app_assoc.
Qed.

(** X9: the handler, the channel and the loop together, on the queue as
    the spec describes it. When up to 16 queries are delivered to
    [query_handler], then received, and the channel is closed, [recv]
    hands the loop these queries in the order of delivery and then the
    null query; [main] answers each of them, in this order, on its key
    expression, and returns 0. *)
Theorem delivered_then_answered L argv queries :
  (length queries <= 16)%nat ->
  inbox_of (deliveries queries ++
            replicate (length queries) Receive ++ [Close; Receive]) =
    map Some queries ++ [None] /\
  (setup_fails L argv = false ->
   replies (trace (main L argv (map Some queries ++ [None]))) =
     map (fun query =>
            (query, keyexpr_of argv, z_bytes_encode_from_string value))
         queries /\
   result (main L argv (map Some queries ++ [None])) = Done 0).
Proof.
  intros Hlen. split.
  - unfold inbox_of, run. rewrite !foldl_app.
    rewrite deliver_all
      by (change (Fifo.bound (channel system_init)) with 16%nat; cbn; lia).
    rewrite (receive_all queries []) by (cbn; by rewrite ?app_nil_r).
    done.
  - intros Hs. rewrite main_replies, main_outcome, Hs.
    by rewrite served_app_end, ends_app_end.
Qed.

Lemma delivered_then_answered_witness :
  (length [query_one_byte; query_absent] <= 16)%nat /\
  inbox_of (deliveries [query_one_byte; query_absent] ++
            replicate (length [query_one_byte; query_absent]) Receive ++
            [Close; Receive]) =
    map Some [query_one_byte; query_absent] ++ [None] /\
  (setup_fails lib_ok argv_plain = false ->
   replies (trace (main lib_ok argv_plain
                     (map Some [query_one_byte; query_absent] ++ [None]))) =
     map (fun query =>
            (query, keyexpr_of argv_plain, z_bytes_encode_from_string value))
         [query_one_byte; query_absent] /\
   result (main lib_ok argv_plain
             (map Some [query_one_byte; query_absent] ++ [None])) = Done 0).
Proof.
  split; [cbn; lia |].
  apply (delivered_then_answered lib_ok argv_plain
           [query_one_byte; query_absent]).
  cbn; lia.
Defined.

(** * [status_print] and [set_default_build_type] *)

Import Helpers.

(** ** The forms of [set] *)

Lemma set_form_of_variable name values :
  match set_form_of (name :: values) with
  | SetEnv v _ | UnsetNormal v | UnsetParent v | SetParent v _
  | SetCache v _ _ _ _ | SetNormal v _ => v = name
  | SetInvalid => True
  end.
Proof.
  unfold set_form_of.
  repeat match goal with
         | |- context [if ?b then _ else _] => destruct b
         end; done.
Qed.


Lemma set_form_of_cache name values v value type docstring force :
  set_form_of (name :: values) = SetCache v value type docstring force ->
  "CACHE" ∈ values.
Proof.
  unfold set_form_of.
  destruct (String.prefix "ENV{" name && _); [done |].
  destruct (bool_decide (length (name :: values) = 1%nat)); [done |].
  destruct (bool_decide (length (name :: values) = 2%nat) && _); [done |].
  destruct (has_last "PARENT_SCOPE" (name :: values)); [done |].
  cbn zeta.
  set (force' := bool_decide (4 < length (name :: values))%nat && _).
  destruct (_ || _ || _); [done |].
  destruct (bool_decide (3 < length (name :: values))%nat && _) eqn:Hcache;
    [| done].
  intros _. apply andb_true_iff in Hcache as [Hsize Hat].
  apply bool_decide_eq_true_1 in Hsize, Hat.
  assert (Hforce : force' = true -> (4 < length (name :: values))%nat).
  { subst force'. intros Hf. apply andb_true_iff in Hf as [Hf _].
    by apply bool_decide_eq_true_1 in Hf. }
  cbn [length] in *.
  destruct (length values - 2 - (if force' then 1 else 0))%nat
    as [| i] eqn:Hi.
  - destruct force'; [specialize (Hforce eq_refl) |]; lia.
  - replace (S (length values) - 3 - (if force' then 1 else 0))%nat
      with (S (length values - 3 - (if force' then 1 else 0)))%nat in Hat
      by (destruct force'; [specialize (Hforce eq_refl) |]; lia).
    cbn in Hat. by eapply list_elem_of_lookup_2.
Qed.

Section HelpersFacts.

Variable elements : string -> list string.
Variable automatic : string -> gmap string string.
Variable cache_write :
  string -> string -> string -> string -> bool -> variables ->
  option string * option string.


Lemma view_set_normal_ne name values s k :
  k <> name -> view (set_normal name values s) !! k = view s !! k.
Proof.
  intros Hne. unfold view, set_normal.
  destruct values; cbn; rewrite !lookup_union.
  - by rewrite lookup_delete_ne.
  - by rewrite lookup_insert_ne.
Qed.

Lemma normal_set_normal_ne name values s k :
  k <> name -> normal (set_normal name values s) !! k = normal s !! k.
Proof.
  intros Hne. unfold set_normal.
  destruct values; cbn.
  - by rewrite lookup_delete_ne.
  - by rewrite lookup_insert_ne.
Qed.

Lemma cached_set_normal name values s :
  cached (set_normal name values s) = cached s.
Proof. unfold set_normal. by destruct values. Qed.



(** [set] changes nothing but the variable and the cache entry of the
    name it is given first, and the cache only when [CACHE] is among the
    other arguments. *)
Lemma cmake_set_effect name values s s' :
  cmake_set cache_write (name :: values) s = Some s' ->
  (forall k, k <> name ->
     normal s' !! k = normal s !! k /\ cached s' !! k = cached s !! k) /\
  ("CACHE" ∉ values -> cached s' = cached s).
Proof.
  unfold cmake_set.
  pose proof (set_form_of_variable name values) as Hvar.
  pose proof (set_form_of_cache name values) as Hcache.
  destruct (set_form_of (name :: values)); try subst variable;
    intros [= <-]; cbn [normal cached].
  - done.
  - split; [| done]. intros k Hk. by rewrite lookup_delete_ne.
  - done.
  - done.
  - split.
    + intros k Hk. by rewrite !lookup_partial_alter_ne.
    + intros Hnot. exfalso. apply Hnot. by eapply Hcache.
  - split; [| done]. intros k Hk. by rewrite lookup_insert_ne.
Qed.


Lemma status_print_line var vars :
  var <> "var" -> automatic var !! var = None ->
  status_print automatic var vars =
  [STATUS (var +:+ " = " +:+ expand vars var)].
Proof.
  intros Hne Hauto. unfold status_print, expand.
  rewrite lookup_insert_eq. cbn [default from_option id].
  rewrite lookup_insert_ne by done.
  by rewrite lookup_union, Hauto, (left_id_L None _).
Qed.

(** X15: [status_print] prints the name and the value that the variable
    has where it is called, for every name that the scope of the function
    does not bind itself. Called on a variable named [var], like its
    parameter, it prints the name in place of the value. *)
Theorem status_print_shadow var vars :
  (var <> "var" -> automatic var !! var = None ->
   status_print automatic var vars =
   [STATUS (var +:+ " = " +:+ expand vars var)]) /\
  status_print automatic "var" vars = [STATUS "var = var"].
Proof.
  split; [apply status_print_line |].
  unfold status_print, expand. by rewrite !lookup_insert_eq.
Qed.


(** X17: on a generator with one configuration, a [CMAKE_BUILD_TYPE]
    that is not the empty string is left as it is and printed: a value
    chosen by the user is kept. So is a [CMAKE_BUILD_TYPE] that is not
    defined at all: the default is not applied, and the line printed has
    no value. *)
Theorem build_type_kept config_type s :
  view s !! "CMAKE_BUILD_TYPE" <> Some "" ->
  automatic "CMAKE_BUILD_TYPE" !! "CMAKE_BUILD_TYPE" = None ->
  let r := set_default_build_type elements automatic cache_write false
             config_type s in
  normal (state r) !! "CMAKE_BUILD_TYPE" = normal s !! "CMAKE_BUILD_TYPE" /\
  cached (state r) = cached s /\
  messages r =
    [STATUS ("CMAKE_BUILD_TYPE = " +:+ expand (view s) "CMAKE_BUILD_TYPE")] /\
  stopped r = false.
Proof.
  intros Hset Hauto. cbn zeta. unfold set_default_build_type.
  assert (Hop : operand
            (view (set_normal "GENERATOR_IS_MULTI_CONFIG" ["0"] s))
            "CMAKE_BUILD_TYPE" <> "").
  { unfold operand. rewrite view_set_normal_ne by done.
    destruct (view s !! "CMAKE_BUILD_TYPE") as [v |]; cbn; [| done].
    intros ->. done. }
  rewrite bool_decide_eq_false_2 by done.
  cbn [state messages stopped].
  rewrite normal_set_normal_ne by done.
  rewrite status_print_line by done.
  unfold expand. rewrite view_set_normal_ne by done. done.
Qed.




(** The variables after the first two steps of the branch for several
    configurations, when the second is no error. *)
Lemma after_default config_type s s2 :
  (if bool_decide
        (is_Some (view (set_normal "GENERATOR_IS_MULTI_CONFIG" ["1"] s)
                    !! "CMAKE_BUILD_TYPE"))
   then Some (set_normal "GENERATOR_IS_MULTI_CONFIG" ["1"] s)
   else cmake_set cache_write
          ("CMAKE_BUILD_TYPE" :: unquoted elements config_type)
          (set_normal "GENERATOR_IS_MULTI_CONFIG" ["1"] s)) = Some s2 ->
  (forall k, k <> "CMAKE_BUILD_TYPE" ->
     normal s2 !! k =
       normal (set_normal "GENERATOR_IS_MULTI_CONFIG" ["1"] s) !! k /\
     cached s2 !! k = cached s !! k) /\
  ("CACHE" ∉ unquoted elements config_type -> cached s2 = cached s).
Proof.
  case_bool_decide.
  - intros [= <-]. done.
  - intros Hset. apply cmake_set_effect in Hset.
    by rewrite cached_set_normal in Hset.
Qed.

Lemma view_after_default config_type s s2 k :
  (if bool_decide
        (is_Some (view (set_normal "GENERATOR_IS_MULTI_CONFIG" ["1"] s)
                    !! "CMAKE_BUILD_TYPE"))
   then Some (set_normal "GENERATOR_IS_MULTI_CONFIG" ["1"] s)
   else cmake_set cache_write
          ("CMAKE_BUILD_TYPE" :: unquoted elements config_type)
          (set_normal "GENERATOR_IS_MULTI_CONFIG" ["1"] s)) = Some s2 ->
  k <> "GENERATOR_IS_MULTI_CONFIG" -> k <> "CMAKE_BUILD_TYPE" ->
  view s2 !! k = view s !! k.
Proof.
  intros Hs2 H1 H2. apply after_default in Hs2 as [Hframe _].
  destruct (Hframe k H2) as [Hn Hc].
  unfold view. rewrite !lookup_union, Hn, Hc.
  by rewrite normal_set_normal_ne.
Qed.


Lemma view_defined_kept config_type s text :
  view s !! "CMAKE_BUILD_TYPE" = Some text ->
  (if bool_decide
        (is_Some (view (set_normal "GENERATOR_IS_MULTI_CONFIG" ["1"] s)
                    !! "CMAKE_BUILD_TYPE"))
   then Some (set_normal "GENERATOR_IS_MULTI_CONFIG" ["1"] s)
   else cmake_set cache_write
          ("CMAKE_BUILD_TYPE" :: unquoted elements config_type)
          (set_normal "GENERATOR_IS_MULTI_CONFIG" ["1"] s)) =
  Some (set_normal "GENERATOR_IS_MULTI_CONFIG" ["1"] s).
Proof.
  intros Htext. rewrite bool_decide_eq_true_2; [done |].
  rewrite view_set_normal_ne by done. by rewrite Htext.
Qed.




(** X21: on a generator with several configurations, a [CMAKE_BUILD_TYPE]
    that is defined but stands for no argument (the empty string) or for
    more than one is not replaced by the default: [list(FIND ...)] is
    given the wrong number of arguments, and the run stops on that error,
    before [n] is set. *)
Theorem build_type_of_several_arguments config_type s text :
  view s !! "CMAKE_BUILD_TYPE" = Some text ->
  length (unquoted elements text) <> 1%nat ->
  let r := set_default_build_type elements automatic cache_write true
             config_type s in
  stopped r = true /\
  messages r =
    [COMMAND_ERROR "list sub-command FIND requires three arguments."] /\
  normal (state r) !! "n" = normal s !! "n" /\
  normal (state r) !! "CMAKE_BUILD_TYPE" = normal s !! "CMAKE_BUILD_TYPE".
Proof.
  intros Htext Hlen. cbn zeta. unfold set_default_build_type.
  rewrite (view_defined_kept config_type s text Htext).
  unfold expand. rewrite !view_set_normal_ne by done.
  rewrite Htext. cbn [default from_option id].
  destruct (unquoted elements text) as [| a [| b l]];
    cbn [state messages stopped]; cbn in Hlen; try done;
    by rewrite !normal_set_normal_ne.
Qed.



(** X23: [CMAKE_DEFAULT_BUILD_TYPE] is set for no generator but Ninja
    Multi-Config: on a generator with one configuration, and on any other
    generator with several, it is left as it was. *)
Theorem default_build_type_only_for_ninja multi_config config_type s :
  multi_config = false \/
  view s !! "CMAKE_GENERATOR" <> Some "Ninja Multi-Config" ->
  let r := set_default_build_type elements automatic cache_write multi_config
             config_type s in
  normal (state r) !! "CMAKE_DEFAULT_BUILD_TYPE" =
    normal s !! "CMAKE_DEFAULT_BUILD_TYPE".
Proof.
  intros Hgen. cbn zeta. unfold set_default_build_type.
  destruct multi_config.
  - destruct Hgen as [? | Hgen]; [done |].
    destruct (if bool_decide _ then _ else _) as [s2 |] eqn:Hs2;
      cbn [state set_error]; [| by rewrite normal_set_normal_ne].
    pose proof (view_after_default config_type s s2 "CMAKE_GENERATOR" Hs2
                  ltac:(done) ltac:(done)) as Hview.
    assert (Hs2' : normal s2 !! "CMAKE_DEFAULT_BUILD_TYPE" =
                   normal s !! "CMAKE_DEFAULT_BUILD_TYPE").
    { apply after_default in Hs2 as [Hframe _].
      rewrite (proj1 (Hframe "CMAKE_DEFAULT_BUILD_TYPE" ltac:(done))).
      by rewrite normal_set_normal_ne. }
    clear Hs2.
    destruct (unquoted elements (expand (view s2) "CMAKE_BUILD_TYPE"))
      as [| build_type [| ? ?]]; cbn [state]; try done.
    destruct (_ <? 0); cbn [state];
      [by rewrite normal_set_normal_ne |].
    case_bool_decide as Hninja; cbn [state];
      [| by rewrite normal_set_normal_ne].
    exfalso. apply Hgen. unfold operand in Hninja.
    rewrite view_set_normal_ne, Hview in Hninja by done.
    destruct (view s !! "CMAKE_GENERATOR"); cbn in Hninja; [by subst | done].
  - destruct (if bool_decide _ then _ else _) as [s2 |] eqn:Hs2;
      cbn [state set_error]; [| by rewrite normal_set_normal_ne].
    revert Hs2. case_bool_decide.
    + intros Hset. apply cmake_set_effect in Hset as [Hframe _].
      rewrite (proj1 (Hframe "CMAKE_DEFAULT_BUILD_TYPE" ltac:(done))).
      by rewrite normal_set_normal_ne.
    + intros Heq. apply (inj Some) in Heq as <-.
      by rewrite normal_set_normal_ne.
Qed.

End HelpersFacts.

(** The words that [set] reads as keywords are not taken as build types:
    with [CACHE] for its argument the macro stops on the error of [set],
    and with [PARENT_SCOPE] it leaves [CMAKE_BUILD_TYPE] empty. *)
Example default_build_type_keyword :
  set_default_build_type elements_plain automatic_one cache_write_new false
    "CACHE" vars_single_config =
  {| state := set_normal "GENERATOR_IS_MULTI_CONFIG" ["0"] vars_single_config;
     messages :=
       [COMMAND_ERROR "set given invalid arguments for CACHE mode."];
     stopped := true |} /\
  set_default_build_type elements_plain automatic_one cache_write_new false
    "PARENT_SCOPE" vars_single_config =
  {| state := set_normal "GENERATOR_IS_MULTI_CONFIG" ["0"] vars_single_config;
     messages := [STATUS "CMAKE_BUILD_TYPE = "];
     stopped := false |}.
Proof. split; by vm_compute. Qed.

(** Nor is [PARENT_SCOPE] taken as a build type by the second [set]:
    with the generator Ninja Multi-Config and a configuration of that
    name, the run goes on and [CMAKE_DEFAULT_BUILD_TYPE] is not set. *)
Example default_build_type_parent_scope :
  let s := set_normal "CMAKE_BUILD_TYPE" ["PARENT_SCOPE"]
             (set_normal "CMAKE_CONFIGURATION_TYPES" ["Debug;PARENT_SCOPE"]
                vars_multi_config) in
  let r := set_default_build_type elements_plain automatic_one
             cache_write_new true "Debug" s in
  stopped r = false /\
  normal (state r) !! "CMAKE_DEFAULT_BUILD_TYPE" = None.
Proof. split; by vm_compute. Qed.

(** An argument of several elements is several arguments of [set]: with
    [CACHE], a type and a text after the value, the default goes to the
    cache. *)
Example default_build_type_to_cache :
  cached (state (set_default_build_type elements_plain automatic_one
                   cache_write_new true "Release;CACHE;STRING;doc;FORCE"
                   (Variables ∅ ∅)))
    !! "CMAKE_BUILD_TYPE" = Some "Release".
Proof. by vm_compute. Qed.

Lemma status_print_shadow_witness :
  ("CMAKE_BUILD_TYPE" <> "var" /\
   automatic_one "CMAKE_BUILD_TYPE" !! "CMAKE_BUILD_TYPE" = None) /\
  status_print automatic_one "CMAKE_BUILD_TYPE"
    (view vars_single_config) =
  [STATUS ("CMAKE_BUILD_TYPE" +:+ " = " +:+
           expand (view vars_single_config) "CMAKE_BUILD_TYPE")].
Proof.
  split; [split; [done | by vm_compute] |].
  apply (proj1 (status_print_shadow automatic_one "CMAKE_BUILD_TYPE"
                  (view vars_single_config))).
  - done.
  - by vm_compute.
Defined.


Lemma build_type_kept_witness :
  (view (Variables ∅ ∅) !! "CMAKE_BUILD_TYPE" <> Some "" /\
   automatic_one "CMAKE_BUILD_TYPE" !! "CMAKE_BUILD_TYPE" = None) /\
  normal (state (set_default_build_type elements_plain automatic_one
                   cache_write_new false "Release" (Variables ∅ ∅)))
    !! "CMAKE_BUILD_TYPE" =
    normal (Variables ∅ ∅) !! "CMAKE_BUILD_TYPE" /\
  cached (state (set_default_build_type elements_plain automatic_one
                   cache_write_new false "Release" (Variables ∅ ∅))) =
    cached (Variables ∅ ∅) /\
  messages (set_default_build_type elements_plain automatic_one
              cache_write_new false "Release" (Variables ∅ ∅)) =
    [STATUS ("CMAKE_BUILD_TYPE = " +:+
             expand (view (Variables ∅ ∅)) "CMAKE_BUILD_TYPE")] /\
  stopped (set_default_build_type elements_plain automatic_one
             cache_write_new false "Release" (Variables ∅ ∅)) = false.
Proof.
  split; [split; by vm_compute |].
  apply (build_type_kept elements_plain automatic_one cache_write_new
           "Release" (Variables ∅ ∅)); by vm_compute.
Defined.




Lemma build_type_of_several_arguments_witness :
  (view (set_normal "CMAKE_BUILD_TYPE" [""] vars_multi_config)
     !! "CMAKE_BUILD_TYPE" = Some "" /\
   length (unquoted elements_plain "") <> 1%nat) /\
  stopped (set_default_build_type elements_plain automatic_one
             cache_write_new true "Release"
             (set_normal "CMAKE_BUILD_TYPE" [""] vars_multi_config)) = true /\
  messages (set_default_build_type elements_plain automatic_one
              cache_write_new true "Release"
              (set_normal "CMAKE_BUILD_TYPE" [""] vars_multi_config)) =
    [COMMAND_ERROR "list sub-command FIND requires three arguments."].
Proof.
  split; [split; by vm_compute |].
  destruct (build_type_of_several_arguments elements_plain automatic_one
              cache_write_new "Release"
              (set_normal "CMAKE_BUILD_TYPE" [""] vars_multi_config) ""
              ltac:(by vm_compute) ltac:(by vm_compute))
    as (Hstop & Hmsg & _).
  split; [exact Hstop | exact Hmsg].
Defined.


Lemma default_build_type_only_for_ninja_witness :
  (false = false \/
   view vars_single_config !! "CMAKE_GENERATOR" <> Some "Ninja Multi-Config")
  /\
  normal (state (set_default_build_type elements_plain automatic_one
                   cache_write_new false "Release" vars_single_config))
    !! "CMAKE_DEFAULT_BUILD_TYPE" =
  normal vars_single_config !! "CMAKE_DEFAULT_BUILD_TYPE".
Proof.
  split; [by left |].
  apply (default_build_type_only_for_ninja elements_plain automatic_one
           cache_write_new false "Release" vars_single_config).
  by left.
Defined.

(** * More on [check_project_usage] *)

Lemma set_parent_frame args parent k :
  (forall name values, args = name :: values -> k <> name) ->
  normal (set_parent args parent) !! k = normal parent !! k.
Proof.
  destruct args as [| name values]; [done |].
  intros Hk. specialize (Hk name values eq_refl). unfold set_parent.
  pose proof (set_form_of_variable name values) as Hvar.
  destruct (set_form_of (name :: values)); try subst variable;
    cbn [normal]; by rewrite ?lookup_insert_ne, ?lookup_delete_ne.
Qed.

Lemma set_parent_cached args parent :
  cached (set_parent args parent) = cached parent.
Proof. unfold set_parent. by destruct (set_form_of args). Qed.

Lemma set_parent_frame_elements l value parent k :
  k ∉ l -> k <> value ->
  normal (set_parent (l ++ [value; "PARENT_SCOPE"]) parent) !! k =
  normal parent !! k.
Proof.
  intros Hl Hv. apply set_parent_frame. intros name values Heq.
  destruct l as [| x l]; cbn in Heq; injection Heq as <- _; [done |].
  intros ->. apply Hl. left.
Qed.

Section UsageFacts.

Variable elements : string -> list string.
Variable automatic : string -> string -> gmap string string.
Variable other_condition :
  list string -> gmap string string -> bool + string.

(** X10: [check_project_usage] leaves the cache as it is, and of the
    variables of the scope of its caller it changes none but those named
    among the elements of its two arguments, and [FALSE] and [TRUE],
    which it takes for names when an argument has no element. Called with
    the names of two variables, it changes no variable but these two. *)
Theorem check_project_usage_frame is_root is_ide caller :
  let r := check_project_usage elements automatic other_condition
             is_root is_ide caller in
  cached (state r) = cached caller /\
  (forall k,
     k ∉ unquoted elements is_root -> k ∉ unquoted elements is_ide ->
     k <> FALSE -> k <> TRUE ->
     normal (state r) !! k = normal caller !! k) /\
  (names_variable elements is_root -> names_variable elements is_ide ->
   forall k, k <> is_root -> k <> is_ide ->
     normal (state r) !! k = normal caller !! k).
Proof.
  cbn zeta. split; [| split].
  - unfold check_project_usage.
    destruct (source_is_current _ _ _) as [[|] | text];
      [destruct (binary_is_build _) | |]; cbn [state];
      by rewrite !set_parent_cached.
  - intros k Hroot Hide Hfalse Htrue. unfold check_project_usage.
    rewrite expand_is_root, expand_is_ide.
    destruct (source_is_current _ _ _) as [[|] | text];
      [destruct (binary_is_build _) | |]; cbn [state];
      by rewrite !set_parent_frame_elements.
  - intros Hroot Hide k Hkr Hki.
    rewrite (check_project_usage_named _ _ _ _ _ _ Hroot Hide). cbn [normal].
    destruct (source_is_current _ _ _) as [[|] | text];
      [destruct (binary_is_build _) | |];
      by rewrite ?lookup_insert_ne.
Qed.

(** The condition of line 10 when the two source directories hold
    paths. *)
Lemma source_is_current_paths vars :
  holds_path elements vars "CMAKE_SOURCE_DIR" ->
  holds_path elements vars "CMAKE_CURRENT_SOURCE_DIR" ->
  source_is_current elements other_condition vars =
  inl (bool_decide
         (operand vars (expand vars "CMAKE_SOURCE_DIR") =
          operand vars (expand vars "CMAKE_CURRENT_SOURCE_DIR"))).
Proof.
  intros [Hs Hs'] [Hc Hc']. unfold source_is_current.
  rewrite Hs, Hc. cbn [app]. unfold condition.
  by rewrite Hs', Hc', bool_decide_eq_true_2.
Qed.

(** X11: called with the names of two different variables,
    [check_project_usage] sets the first to TRUE exactly when the
    condition of line 10 is true, and the second to TRUE exactly when
    this one and the condition of line 12 are both true; FALSE otherwise.
    When the two source directories hold paths, the condition of line 10
    is that the two are the same string, each of them replaced by the
    value of the variable of that name when there is one; and the
    function reports nothing. *)
Theorem check_project_usage_values is_root is_ide caller :
  names_variable elements is_root -> names_variable elements is_ide ->
  is_root <> is_ide ->
  let vars := function_scope automatic caller is_root is_ide in
  let r := check_project_usage elements automatic other_condition
             is_root is_ide caller in
  let current := source_is_current elements other_condition vars in
  normal (state r) !! is_root =
    Some (if bool_decide (current = inl true) then TRUE else FALSE) /\
  normal (state r) !! is_ide =
    Some (if bool_decide (current = inl true) && binary_is_build vars
          then TRUE else FALSE) /\
  (holds_path elements vars "CMAKE_SOURCE_DIR" ->
   holds_path elements vars "CMAKE_CURRENT_SOURCE_DIR" ->
   current =
     inl (bool_decide
            (operand vars (expand vars "CMAKE_SOURCE_DIR") =
             operand vars (expand vars "CMAKE_CURRENT_SOURCE_DIR"))) /\
   messages r = [] /\ stopped r = false).
Proof.
  intros Hroot Hide Hne. cbn zeta.
  rewrite (check_project_usage_named _ _ _ _ _ _ Hroot Hide). cbn [normal].
  split; [| split].
  - destruct (source_is_current _ _ _) as [[|] | text];
      [destruct (binary_is_build _) | |]; by simplify_map_eq.
  - destruct (source_is_current _ _ _) as [[|] | text];
      [destruct (binary_is_build _) | |]; by simplify_map_eq.
  - intros Hs Hc. split; [by apply source_is_current_paths |].
    unfold check_project_usage.
    rewrite (source_is_current_paths _ Hs Hc).
    destruct (bool_decide _); [by destruct (binary_is_build _) | done].
Qed.

(** X12: called with the name of one variable twice,
    [check_project_usage] leaves in that variable the answer for
    [is_root]: the answer for [is_ide] is lost whenever the two differ. *)
Theorem check_project_usage_same_name name caller :
  names_variable elements name ->
  normal (state (check_project_usage elements automatic other_condition
                   name name caller)) !! name =
  Some (if bool_decide
             (source_is_current elements other_condition
                (function_scope automatic caller name name) = inl true)
        then TRUE else FALSE).
Proof.
  intros Hname.
  rewrite (check_project_usage_named _ _ _ _ _ _ Hname Hname). cbn [normal].
  destruct (source_is_current _ _ _) as [[|] | text];
    [destruct (binary_is_build _) | |]; by simplify_map_eq.
Qed.

Lemma function_scope_agree caller caller' is_root is_ide k :
  view caller' !! k = view caller !! k ->
  function_scope automatic caller' is_root is_ide !! k =
  function_scope automatic caller is_root is_ide !! k.
Proof.
  intros Hk. unfold function_scope.
  destruct (decide (k = "is_ide")) as [-> | ?]; [by simplify_map_eq |].
  destruct (decide (k = "is_root")) as [-> | ?]; [by simplify_map_eq |].
  rewrite !lookup_insert_ne by done. by rewrite !lookup_union, Hk.
Qed.

Lemma conditions_agree vars vars' :
  (forall k, k ∈ keys_read vars -> vars' !! k = vars !! k) ->
  expand vars' "CMAKE_SOURCE_DIR" = expand vars "CMAKE_SOURCE_DIR" /\
  expand vars' "CMAKE_CURRENT_SOURCE_DIR" =
    expand vars "CMAKE_CURRENT_SOURCE_DIR" /\
  bool_decide (operand vars' (expand vars "CMAKE_SOURCE_DIR") =
               operand vars' (expand vars "CMAKE_CURRENT_SOURCE_DIR")) =
  bool_decide (operand vars (expand vars "CMAKE_SOURCE_DIR") =
               operand vars (expand vars "CMAKE_CURRENT_SOURCE_DIR")) /\
  binary_is_build vars' = binary_is_build vars.
Proof.
  intros Hk. unfold keys_read in Hk.
  assert (H1 : expand vars' "CMAKE_SOURCE_DIR" = expand vars "CMAKE_SOURCE_DIR").
  { unfold expand. rewrite Hk; [done |]. repeat constructor. }
  assert (H2 : expand vars' "CMAKE_CURRENT_SOURCE_DIR" =
               expand vars "CMAKE_CURRENT_SOURCE_DIR").
  { unfold expand. rewrite Hk; [done |]. repeat constructor. }
  split; [done |]. split; [done |].
  unfold binary_is_build. rewrite H2.
  unfold operand. rewrite !Hk; [done | repeat constructor ..].
Qed.

(** The whole of what the function does, when its arguments are names of
    variables and the two source directories hold paths. *)
Lemma check_project_usage_paths is_root is_ide caller :
  names_variable elements is_root -> names_variable elements is_ide ->
  let vars := function_scope automatic caller is_root is_ide in
  holds_path elements vars "CMAKE_SOURCE_DIR" ->
  holds_path elements vars "CMAKE_CURRENT_SOURCE_DIR" ->
  let base := <[is_ide := FALSE]> (<[is_root := FALSE]> (normal caller)) in
  check_project_usage elements automatic other_condition
    is_root is_ide caller =
  {| state :=
       {| normal :=
            if bool_decide
                 (operand vars (expand vars "CMAKE_SOURCE_DIR") =
                  operand vars (expand vars "CMAKE_CURRENT_SOURCE_DIR"))
            then if binary_is_build vars
                 then <[is_ide := TRUE]> (<[is_root := TRUE]> base)
                 else <[is_root := TRUE]> base
            else base;
          cached := cached caller |};
     messages := [];
     stopped := false |}.
Proof.
  intros [Hroot Hroot'] [Hide Hide']. cbn zeta. intros Hs Hc.
  unfold check_project_usage.
  rewrite (source_is_current_paths _ Hs Hc).
  rewrite expand_is_root, expand_is_ide, Hroot, Hide.
  cbn [app]. rewrite !set_parent_variable by done.
  destruct (bool_decide _); [by destruct (binary_is_build _) | done].
Qed.

Lemma holds_path_agree vars vars' name :
  expand vars' name = expand vars name ->
  holds_path elements vars name -> holds_path elements vars' name.
Proof. unfold holds_path. by intros ->. Qed.

(** X13: called with the names of two variables where the two source
    directories hold paths, the function gives results that depend on the
    variables of its caller through the keys that the conditions look up
    only: the three directory variables, and the variables that the two
    source directories would name. Where two callers agree on these, the
    results are the same. *)
Theorem check_project_usage_reads is_root is_ide caller caller' :
  names_variable elements is_root -> names_variable elements is_ide ->
  holds_path elements (function_scope automatic caller is_root is_ide)
    "CMAKE_SOURCE_DIR" ->
  holds_path elements (function_scope automatic caller is_root is_ide)
    "CMAKE_CURRENT_SOURCE_DIR" ->
  (forall k, k ∈ keys_read (function_scope automatic caller is_root is_ide) ->
             view caller' !! k = view caller !! k) ->
  normal (state (check_project_usage elements automatic other_condition
                   is_root is_ide caller')) !! is_root =
    normal (state (check_project_usage elements automatic other_condition
                     is_root is_ide caller)) !! is_root /\
  normal (state (check_project_usage elements automatic other_condition
                   is_root is_ide caller')) !! is_ide =
    normal (state (check_project_usage elements automatic other_condition
                     is_root is_ide caller)) !! is_ide.
Proof.
  intros Hroot Hide Hs Hc Hk.
  destruct (conditions_agree (function_scope automatic caller is_root is_ide)
              (function_scope automatic caller' is_root is_ide))
    as (Hes & Hec & Hcur & Hbin).
  { intros k Hin. by apply function_scope_agree, Hk. }
  rewrite (check_project_usage_paths _ _ caller Hroot Hide Hs Hc).
  rewrite (check_project_usage_paths _ _ caller' Hroot Hide
             (holds_path_agree _ _ _ Hes Hs) (holds_path_agree _ _ _ Hec Hc)).
  cbn [state normal]. rewrite Hes, Hec, Hcur, Hbin. clear Hcur Hbin.
  destruct (bool_decide _); [destruct (binary_is_build _) |];
    destruct (decide (is_root = is_ide)) as [-> | Hne];
    split; by simplify_map_eq.
Qed.

(** X14: called with the names of two variables where the two source
    directories hold paths, and neither of the two variables is among the
    keys that the conditions look up, the function changes nothing when it
    is called a second time with the same arguments: earlier values of the
    two variables do not matter. *)
Theorem check_project_usage_idempotent is_root is_ide caller :
  names_variable elements is_root -> names_variable elements is_ide ->
  holds_path elements (function_scope automatic caller is_root is_ide)
    "CMAKE_SOURCE_DIR" ->
  holds_path elements (function_scope automatic caller is_root is_ide)
    "CMAKE_CURRENT_SOURCE_DIR" ->
  is_root ∉ keys_read (function_scope automatic caller is_root is_ide) ->
  is_ide ∉ keys_read (function_scope automatic caller is_root is_ide) ->
  check_project_usage elements automatic other_condition is_root is_ide
    (state (check_project_usage elements automatic other_condition
              is_root is_ide caller)) =
  check_project_usage elements automatic other_condition is_root is_ide caller.
Proof.
  intros Hroot Hide Hs Hc Hr Hi.
  set (once := check_project_usage elements automatic other_condition
                 is_root is_ide caller).
  destruct (check_project_usage_frame is_root is_ide caller)
    as (Hcached & _ & Hframe).
  specialize (Hframe Hroot Hide). fold once in Hcached, Hframe.
  destruct (conditions_agree (function_scope automatic caller is_root is_ide)
              (function_scope automatic (state once) is_root is_ide))
    as (Hes & Hec & Hcur & Hbin).
  { intros k Hin. apply function_scope_agree.
    unfold view. rewrite !lookup_union, Hcached.
    rewrite Hframe; [done | by intros -> | by intros ->]. }
  rewrite (check_project_usage_paths _ _ (state once) Hroot Hide
             (holds_path_agree _ _ _ Hes Hs) (holds_path_agree _ _ _ Hec Hc)).
  rewrite Hes, Hec, Hcur, Hbin, Hcached. clear Hcur Hbin.
  subst once.
  rewrite (check_project_usage_paths _ _ caller Hroot Hide Hs Hc).
  cbn [state normal cached]. f_equal. f_equal.
  apply map_eq. intros k.
  destruct (bool_decide _); [destruct (binary_is_build _) |];
    destruct (decide (k = is_root)) as [Hkr | ?];
    destruct (decide (k = is_ide)) as [Hki | ?]; by simplify_map_eq.
Qed.

End UsageFacts.

Lemma check_project_usage_frame_witness :
  (names_variable elements_plain "ZENOHC_IS_ROOT" /\
   names_variable elements_plain "ZENOHC_IS_IDE" /\
   "CMAKE_SOURCE_DIR" <> "ZENOHC_IS_ROOT" /\
   "CMAKE_SOURCE_DIR" <> "ZENOHC_IS_IDE") /\
  cached (state (check_project_usage elements_plain automatic_two
                   condition_unknown "ZENOHC_IS_ROOT" "ZENOHC_IS_IDE"
                   scope_ide)) = cached scope_ide /\
  normal (state (check_project_usage elements_plain automatic_two
                   condition_unknown "ZENOHC_IS_ROOT" "ZENOHC_IS_IDE"
                   scope_ide)) !! "CMAKE_SOURCE_DIR" =
    normal scope_ide !! "CMAKE_SOURCE_DIR".
Proof.
  assert (Hroot : names_variable elements_plain "ZENOHC_IS_ROOT")
    by (split; by vm_compute).
  assert (Hide : names_variable elements_plain "ZENOHC_IS_IDE")
    by (split; by vm_compute).
  split; [split; [exact Hroot | split; [exact Hide | by split]] |].
  destruct (check_project_usage_frame elements_plain automatic_two
              condition_unknown "ZENOHC_IS_ROOT" "ZENOHC_IS_IDE" scope_ide)
    as (Hcached & _ & Hframe).
  split; [exact Hcached |].
  apply (Hframe Hroot Hide "CMAKE_SOURCE_DIR"); done.
Defined.

Lemma check_project_usage_values_witness :
  (names_variable elements_plain "ZENOHC_IS_ROOT" /\
   names_variable elements_plain "ZENOHC_IS_IDE" /\
   "ZENOHC_IS_ROOT" <> "ZENOHC_IS_IDE") /\
  normal (state (check_project_usage elements_plain automatic_two
                   condition_unknown "ZENOHC_IS_ROOT" "ZENOHC_IS_IDE"
                   scope_ide)) !! "ZENOHC_IS_ROOT" =
    Some (if bool_decide
               (source_is_current elements_plain condition_unknown
                  (function_scope automatic_two scope_ide
                     "ZENOHC_IS_ROOT" "ZENOHC_IS_IDE") = inl true)
          then TRUE else FALSE) /\
  normal (state (check_project_usage elements_plain automatic_two
                   condition_unknown "ZENOHC_IS_ROOT" "ZENOHC_IS_IDE"
                   scope_ide)) !! "ZENOHC_IS_IDE" =
    Some (if bool_decide
               (source_is_current elements_plain condition_unknown
                  (function_scope automatic_two scope_ide
                     "ZENOHC_IS_ROOT" "ZENOHC_IS_IDE") = inl true) &&
             binary_is_build
               (function_scope automatic_two scope_ide
                  "ZENOHC_IS_ROOT" "ZENOHC_IS_IDE")
          then TRUE else FALSE).
Proof.
  assert (Hroot : names_variable elements_plain "ZENOHC_IS_ROOT")
    by (split; by vm_compute).
  assert (Hide : names_variable elements_plain "ZENOHC_IS_IDE")
    by (split; by vm_compute).
  split; [split; [exact Hroot | split; [exact Hide | done]] |].
  destruct (check_project_usage_values elements_plain automatic_two
              condition_unknown "ZENOHC_IS_ROOT" "ZENOHC_IS_IDE" scope_ide
              Hroot Hide ltac:(done))
    as (Hr & Hi & _).
  split; [exact Hr | exact Hi].
Defined.

Lemma check_project_usage_same_name_witness :
  names_variable elements_plain "ZENOHC_IS_ROOT" /\
  normal (state (check_project_usage elements_plain automatic_two
                   condition_unknown "ZENOHC_IS_ROOT" "ZENOHC_IS_ROOT"
                   scope_ide)) !! "ZENOHC_IS_ROOT" =
  Some (if bool_decide
             (source_is_current elements_plain condition_unknown
                (function_scope automatic_two scope_ide
                   "ZENOHC_IS_ROOT" "ZENOHC_IS_ROOT") = inl true)
        then TRUE else FALSE).
Proof.
  assert (Hroot : names_variable elements_plain "ZENOHC_IS_ROOT")
    by (split; by vm_compute).
  split; [exact Hroot |].
  apply (check_project_usage_same_name elements_plain automatic_two
           condition_unknown "ZENOHC_IS_ROOT" scope_ide Hroot).
Defined.

Lemma check_project_usage_reads_witness :
  (names_variable elements_plain "ZENOHC_IS_ROOT" /\
   names_variable elements_plain "ZENOHC_IS_IDE" /\
   holds_path elements_plain
     (function_scope automatic_two scope_included
        "ZENOHC_IS_ROOT" "ZENOHC_IS_IDE") "CMAKE_SOURCE_DIR" /\
   holds_path elements_plain
     (function_scope automatic_two scope_included
        "ZENOHC_IS_ROOT" "ZENOHC_IS_IDE") "CMAKE_CURRENT_SOURCE_DIR") /\
  normal (state (check_project_usage elements_plain automatic_two
                   condition_unknown "ZENOHC_IS_ROOT" "ZENOHC_IS_IDE"
                   (set_normal "ZENOHC_IS_ROOT" ["stale"] scope_included)))
    !! "ZENOHC_IS_ROOT" =
    normal (state (check_project_usage elements_plain automatic_two
                     condition_unknown "ZENOHC_IS_ROOT" "ZENOHC_IS_IDE"
                     scope_included)) !! "ZENOHC_IS_ROOT" /\
  normal (state (check_project_usage elements_plain automatic_two
                   condition_unknown "ZENOHC_IS_ROOT" "ZENOHC_IS_IDE"
                   (set_normal "ZENOHC_IS_ROOT" ["stale"] scope_included)))
    !! "ZENOHC_IS_IDE" =
    normal (state (check_project_usage elements_plain automatic_two
                     condition_unknown "ZENOHC_IS_ROOT" "ZENOHC_IS_IDE"
                     scope_included)) !! "ZENOHC_IS_IDE".
Proof.
  assert (Hroot : names_variable elements_plain "ZENOHC_IS_ROOT")
    by (split; by vm_compute).
  assert (Hide : names_variable elements_plain "ZENOHC_IS_IDE")
    by (split; by vm_compute).
  assert (Hs : holds_path elements_plain
                 (function_scope automatic_two scope_included
                    "ZENOHC_IS_ROOT" "ZENOHC_IS_IDE") "CMAKE_SOURCE_DIR")
    by (split; by vm_compute).
  assert (Hc : holds_path elements_plain
                 (function_scope automatic_two scope_included
                    "ZENOHC_IS_ROOT" "ZENOHC_IS_IDE")
                 "CMAKE_CURRENT_SOURCE_DIR")
    by (split; by vm_compute).
  split; [split; [exact Hroot | split; [exact Hide | split;
            [exact Hs | exact Hc]]] |].
  apply (check_project_usage_reads elements_plain automatic_two
           condition_unknown "ZENOHC_IS_ROOT" "ZENOHC_IS_IDE"
           scope_included
           (set_normal "ZENOHC_IS_ROOT" ["stale"] scope_included)
           Hroot Hide Hs Hc).
  intros k Hin. apply view_set_normal_ne. intros ->.
  vm_compute in Hin. in_calls Hin.
Defined.

Lemma check_project_usage_idempotent_witness :
  (names_variable elements_plain "ZENOHC_IS_ROOT" /\
   names_variable elements_plain "ZENOHC_IS_IDE" /\
   holds_path elements_plain
     (function_scope automatic_two scope_ide
        "ZENOHC_IS_ROOT" "ZENOHC_IS_IDE") "CMAKE_SOURCE_DIR" /\
   holds_path elements_plain
     (function_scope automatic_two scope_ide
        "ZENOHC_IS_ROOT" "ZENOHC_IS_IDE") "CMAKE_CURRENT_SOURCE_DIR") /\
  check_project_usage elements_plain automatic_two condition_unknown
    "ZENOHC_IS_ROOT" "ZENOHC_IS_IDE"
    (state (check_project_usage elements_plain automatic_two
              condition_unknown "ZENOHC_IS_ROOT" "ZENOHC_IS_IDE"
              scope_ide)) =
  check_project_usage elements_plain automatic_two condition_unknown
    "ZENOHC_IS_ROOT" "ZENOHC_IS_IDE" scope_ide.
Proof.
  assert (Hroot : names_variable elements_plain "ZENOHC_IS_ROOT")
    by (split; by vm_compute).
  assert (Hide : names_variable elements_plain "ZENOHC_IS_IDE")
    by (split; by vm_compute).
  assert (Hs : holds_path elements_plain
                 (function_scope automatic_two scope_ide
                    "ZENOHC_IS_ROOT" "ZENOHC_IS_IDE") "CMAKE_SOURCE_DIR")
    by (split; by vm_compute).
  assert (Hc : holds_path elements_plain
                 (function_scope automatic_two scope_ide
                    "ZENOHC_IS_ROOT" "ZENOHC_IS_IDE")
                 "CMAKE_CURRENT_SOURCE_DIR")
    by (split; by vm_compute).
  split; [split; [exact Hroot | split; [exact Hide | split;
            [exact Hs | exact Hc]]] |].
  apply (check_project_usage_idempotent elements_plain automatic_two
           condition_unknown "ZENOHC_IS_ROOT" "ZENOHC_IS_IDE" scope_ide
           Hroot Hide Hs Hc).
  - vm_compute. intros Hin. in_calls Hin.
  - vm_compute. intros Hin. in_calls Hin.
Defined.
